(** * LR4: student references kept in a CSV-backed collection

    A shallow embedding of [src/LR4.py]: the [StudentReference] record with
    its attribute guard and validation, and [ReferenceCollection] with
    [add], indexing, CSV load and save, stipend filtering and sorting.

    Python values are the ones the program itself stores: [None], [str],
    [float] and the two booleans of the [_initialized] flag.  A [str] is a
    Rocq [string] holding its UTF-8 bytes (byte-wise order on UTF-8 is code
    point order, which is how Python orders [str]; a [str] with a lone
    surrogate has no UTF-8 bytes and is not modelled); a [float] is an
    IEEE 754 value of [SpecFloat.spec_float], NaN and signed zeros
    included. *)

From Stdlib Require Import ZArith Floats.SpecFloat.
From stdpp Require Import gmap strings list fin_maps sorting.

Open Scope string_scope.
Open Scope list_scope.

Module LR4.

(** ** Python values and exceptions *)

Inductive value :=
  | VNone
  | VBool (b : bool)
  | VStr (s : string)
  | VFloat (f : spec_float).

Inductive exn :=
  | TypeError
  | ValueError
  | KeyError
  | AttributeError
  | IndexError
  | FileNotFoundError.

Inductive result (A : Type) :=
  | Ok (a : A)
  | Raise (e : exn).
Arguments Ok {A} a.
Arguments Raise {A} e.

#[global] Instance result_ret : MRet result := fun A a => Ok a.
#[global] Instance result_bind : MBind result := fun A B k m =>
  match m with
  | Ok a => k a
  | Raise e => Raise e
  end.

(** [bool(v)]: [None], [False], the empty string and both float zeros are
    falsy; every other value, NaN included, is truthy. *)
Definition truthy (v : value) : bool :=
  match v with
  | VNone => false
  | VBool b => b
  | VStr s => negb (String.eqb s "")
  | VFloat (S754_zero _) => false
  | VFloat _ => true
  end.

(** Numbers: [bool] is a subclass of [int], so [False] and [True] compare
    as 0 and 1. *)
Definition float_one : spec_float := S754_finite false 4503599627370496 (-52)%Z.

Definition as_number (v : value) : option spec_float :=
  match v with
  | VFloat f => Some f
  | VBool b => Some (if b then float_one else S754_zero false)
  | _ => None
  end.

(** [a < b] *)
Definition py_lt (a b : value) : result bool :=
  match a, b with
  | VStr s1, VStr s2 => Ok (String.ltb s1 s2)
  | _, _ =>
    match as_number a, as_number b with
    | Some x, Some y => Ok (SFltb x y)
    | _, _ => Raise TypeError
    end
  end.

(** [a <= b] *)
Definition py_le (a b : value) : result bool :=
  match a, b with
  | VStr s1, VStr s2 => Ok (String.leb s1 s2)
  | _, _ =>
    match as_number a, as_number b with
    | Some x, Some y => Ok (SFleb x y)
    | _, _ => Raise TypeError
    end
  end.

(** [a > b] is [b < a] with the operands swapped back. *)
Definition py_gt (a b : value) : result bool := py_lt b a.

(** ** StudentReference *)

(** An instance: the five data attributes, the [_initialized] flag, and
    whatever else [object.__setattr__] may have put into [__dict__]. *)
Record StudentReference := mkStudentReference {
  _initialized : value;
  id : value;
  date : value;
  full_name : value;
  stipend : value;
  destination : value;
  other_attrs : gmap string value;
}.

Definition _fields : list string :=
  ["id"; "date"; "full_name"; "stipend"; "destination"].

(** [object.__setattr__(self, name, value)] *)
Definition object_setattr (name : string) (v : value) (self : StudentReference)
  : StudentReference :=
  let '(mkStudentReference ini i d n s t o) := self in
  if String.eqb name "_initialized" then mkStudentReference v i d n s t o
  else if String.eqb name "id" then mkStudentReference ini v d n s t o
  else if String.eqb name "date" then mkStudentReference ini i v n s t o
  else if String.eqb name "full_name" then mkStudentReference ini i d v s t o
  else if String.eqb name "stipend" then mkStudentReference ini i d n v t o
  else if String.eqb name "destination" then mkStudentReference ini i d n s v o
  else mkStudentReference ini i d n s t (<[name := v]> o).

(** The object before [__init__] has run on it. *)
Definition new_object : StudentReference :=
  mkStudentReference VNone VNone VNone VNone VNone VNone ∅.

(** The body of [__init__], run on a new object with the keyword
    arguments that [kwargs] has collected. *)
Definition __init__ (kwargs : gmap string value) : StudentReference :=
  let self := object_setattr "_initialized" (VBool false) new_object in
  let self :=
    foldl (fun self key => object_setattr key (default VNone (kwargs !! key)) self)
          self _fields in
  object_setattr "_initialized" (VBool true) self.

(** The call [StudentReference(k1=v1, ...)] with the keywords of [keywords].
    The new object is bound to the parameter [self] of
    [def __init__(self, **kwargs)] before the keywords are: a keyword
    named [self] is a second value for that parameter and the call raises
    [TypeError]; every other keyword goes into [kwargs].  (The calls the
    program itself makes, in [from_csv] and in [main], pass the five field
    names and are written with [__init__] directly.) *)
Definition call_StudentReference (keywords : gmap string value)
  : result StudentReference :=
  match keywords !! "self" with
  | Some _ => Raise TypeError
  | None => Ok (__init__ keywords)
  end.

(** [self.name = value] from outside: the guard of lines 22-25. *)
Definition __setattr__ (name : string) (v : value) (self : StudentReference)
  : result StudentReference :=
  if negb (bool_decide (name ∈ _fields)) && truthy (_initialized self)
  then Raise AttributeError
  else Ok (object_setattr name v self).

(** [self.validate()] *)
Definition validate (self : StudentReference) : result unit :=
  if negb (forallb truthy
             [id self; date self; full_name self; stipend self; destination self])
  then Raise ValueError
  else Ok tt.

(** [self.to_dict()] *)
Definition to_dict (self : StudentReference) : gmap string value :=
  <["куда выдается справка" := destination self]>
  (<["размер стипендии" := stipend self]>
  (<["ФИО студента" := full_name self]>
  (<["дата" := date self]>
  (<["№" := id self]> ∅)))).

(** ** list.sort(key=...)

    Python sorts the list stably and compares nothing but keys, with [<]
    alone.  The model is the insertion sort that moves each element left
    past the elements whose key is strictly greater.  Where [<] is a strict
    weak order on the keys every stable sort returns the same list;
    CPython's algorithm differs in which comparisons it makes.  The keys
    here are attributes read off the elements, so reading them at each
    comparison gives what Python's single reading gives.  When a comparison
    raises, Python leaves the list partly sorted: the model keeps the
    prefix it has sorted so far, followed by the rest.

    The model is Python's [list.sort] where [<] is a strict weak order on
    the keys present.  Where it is not (a NaN among floats) or where a
    comparison raises, the order Python leaves is that of its own merge
    strategy, which may differ from the insertion sort's on long lists;
    both leave a permutation of the list. *)
Section list_sort.
Context {A : Type} (key : A → value).

(** [before] is the sorted prefix, last element first. *)
Fixpoint insert_back (x : A) (before : list A) : result (list A) :=
  match before with
  | [] => Ok [x]
  | y :: before' =>
    b ← py_lt (key x) (key y);
    if b : bool then l ← insert_back x before'; Ok (y :: l)
    else Ok (x :: before)
  end.

Fixpoint sort_loop (before todo : list A) : result unit * list A :=
  match todo with
  | [] => (Ok tt, reverse before)
  | x :: todo' =>
    match insert_back x before with
    | Ok before' => sort_loop before' todo'
    | Raise e => (Raise e, reverse before ++ todo)
    end
  end.

Definition list_sort (l : list A) : result unit * list A := sort_loop [] l.
End list_sort.

(** ** ReferenceCollection *)

Record ReferenceCollection := mkCollection {
  _data : list StudentReference;
}.

(** What a caller may pass where a [StudentReference] is expected. *)
Inductive pyobj :=
  | OValue (v : value)
  | ORecord (r : StudentReference)
  | OCollection (c : ReferenceCollection).

(** [isinstance(item, StudentReference)] *)
Definition is_StudentReference (item : pyobj) : bool :=
  match item with
  | ORecord _ => true
  | _ => false
  end.

(** Methods run on the collection they are called on: they return what
    Python returns or raises, and the collection as it is afterwards. *)
Definition method (A : Type) : Type :=
  ReferenceCollection → result A * ReferenceCollection.

(** [ReferenceCollection()] *)
Definition new_collection : ReferenceCollection := mkCollection [].

(** [self._data[index]] on a Python list: a negative index counts from
    the end, anything outside the list raises [IndexError]. *)
Definition list_getitem {A} (l : list A) (index : Z) : result A :=
  let n := Z.of_nat (length l) in
  let i := if (index <? 0)%Z then (index + n)%Z else index in
  if (i <? 0)%Z || (n <=? i)%Z then Raise IndexError
  else match l !! Z.to_nat i with
       | Some x => Ok x
       | None => Raise IndexError
       end.

Definition __getitem__ (index : Z) : method StudentReference :=
  fun self => (list_getitem (_data self) index, self).

Definition add (item : pyobj) : method unit :=
  fun self =>
    match item with
    | ORecord r => (Ok tt, mkCollection (_data self ++ [r]))
    | _ => (Raise TypeError, self)
    end.

(** A generator run to its end: what it yielded, and the exception that
    ended it if one did. *)
Record generated (A : Type) := mkGenerated {
  yielded : list A;
  raised : option exn;
}.
Arguments mkGenerated {A} yielded raised.
Arguments yielded {A} g.
Arguments raised {A} g.

Fixpoint filter_items (threshold : value) (items : list StudentReference)
  : generated StudentReference :=
  match items with
  | [] => mkGenerated [] None
  | item :: rest =>
    match py_gt (stipend item) threshold with
    | Raise e => mkGenerated [] (Some e)
    | Ok b =>
      let g := filter_items threshold rest in
      mkGenerated (if b then item :: yielded g else yielded g) (raised g)
    end
  end.

Definition filter_by_stipend (threshold : value)
  : ReferenceCollection → generated StudentReference * ReferenceCollection :=
  fun self => (filter_items threshold (_data self), self).

(** [field == 'name'] for whatever object [field] is. *)
Definition eq_str (field : pyobj) (s : string) : bool :=
  match field with
  | OValue (VStr s') => String.eqb s' s
  | _ => false
  end.

(** [EnhancedReferenceCollection.sort_by(self, field)] *)
Definition sort_by (field : pyobj) : method unit :=
  fun self =>
    if eq_str field "name" then
      let '(r, l) := list_sort full_name (_data self) in (r, mkCollection l)
    else if eq_str field "stipend" then
      let '(r, l) := list_sort stipend (_data self) in (r, mkCollection l)
    else (Ok tt, self).

(** ** CSV files

    A file is the table of cells that [csv.reader] yields of it when it is
    opened as [from_csv] opens it, a line of the file being a list of
    cells; the quoting and the byte encoding between that table and the
    text on disk belong to the csv module and are not modelled.  The file
    system maps a path to its table.  A file that cannot be decoded, or
    that has a cell beyond the reader's limit, has no such table: the
    exceptions [from_csv] lets through for it are outside the model. *)
Abbreviation table := (list (list string)).
Abbreviation filesystem := (gmap string table).

(** The built-ins [float(s)] on a string and [repr(f)] on a float. *)
Class FloatText := {
  float_of_str : string → option spec_float;
  float_repr : spec_float → string;
}.

Definition header : list string :=
  ["№"; "дата"; "ФИО студента"; "размер стипендии"; "куда выдается справка"].

(** What the machine answers where the program asks it about paths:
    [os.listdir(path)], and [open(path, 'w', ...)], which returns or
    raises, as it does with [FileNotFoundError] for the empty path and
    for a directory that does not exist.  The program catches whatever
    [open] raises there, so that only whether it raises matters. *)
Class Directories := {
  os_listdir : string → result (list string);
  open_for_writing : string → result unit;
}.

(** Text as it comes out of a file opened for reading without [newline]:
    every [\r\n] and every other [\r] is read as [\n]. *)
Definition CR : Ascii.ascii := Eval cbv in Ascii.ascii_of_N 13.
Definition LF : Ascii.ascii := Eval cbv in Ascii.ascii_of_N 10.

Fixpoint universal_newlines (s : string) : string :=
  match s with
  | EmptyString => EmptyString
  | String a s' =>
    if Ascii.eqb a CR then
      String LF match s' with
                | EmptyString => EmptyString
                | String b s'' =>
                  if Ascii.eqb b LF then universal_newlines s''
                  else universal_newlines s'
                end
    else String a (universal_newlines s')
  end.

(** [len(s)]: the code points of [s], the bytes that do not continue a
    UTF-8 sequence. *)
Definition continuation_byte (a : Ascii.ascii) : bool :=
  let n := Ascii.N_of_ascii a in (128 <=? n)%N && (n <? 192)%N.

Fixpoint len (s : string) : N :=
  match s with
  | EmptyString => 0
  | String a s' => (if continuation_byte a then 0 else 1) + len s'
  end%N.

(** [csv.field_size_limit()]: [csv.reader] raises at a longer cell. *)
Definition field_size_limit : N := 131072.

Section csv.
Context `{FloatText} `{Directories}.

(** One row of [csv.DictReader]: the cells under the field names, a
    later duplicate name winning, [None] under the names a short row
    leaves without a cell.  (The cells beyond the last name go under
    the key [None], which no lookup by name reaches.) *)
Definition DictReader_row (fieldnames row : list string)
  : gmap string (option string) :=
  let d := foldl (fun d kv => <[kv.1 := Some kv.2]> d) ∅ (zip fieldnames row) in
  foldl (fun d k => <[k := None]> d) d (drop (length row) fieldnames).

(** The rows [csv.DictReader] yields: the first line gives the names,
    blank lines are skipped. *)
Definition DictReader (t : table) : list (gmap string (option string)) :=
  match t with
  | [] => []
  | fieldnames :: rows =>
    DictReader_row fieldnames <$> filter (fun row => row ≠ []) rows
  end.

(** [row[key]] *)
Definition dict_getitem (row : gmap string (option string)) (key : string)
  : result (option string) :=
  match row !! key with
  | Some cell => Ok cell
  | None => Raise KeyError
  end.

Definition cell_value (cell : option string) : value :=
  match cell with
  | Some s => VStr s
  | None => VNone
  end.

(** [float(cell)] *)
Definition py_float (cell : option string) : result value :=
  match cell with
  | None => Raise TypeError
  | Some s =>
    match float_of_str s with
    | Some f => Ok (VFloat f)
    | None => Raise ValueError
    end
  end.

(** The body of the inner [try] of [from_csv]. *)
Definition load_row (row : gmap string (option string)) : method unit :=
  fun collection =>
    let ref :=
      i ← dict_getitem row "№";
      d ← dict_getitem row "дата";
      n ← dict_getitem row "ФИО студента";
      c ← dict_getitem row "размер стипендии";
      s ← py_float c;
      t ← dict_getitem row "куда выдается справка";
      let ref := __init__ (<["destination" := cell_value t]>
                          (<["stipend" := s]>
                          (<["full_name" := cell_value n]>
                          (<["date" := cell_value d]>
                          (<["id" := cell_value i]> ∅))))) in
      _ ← validate ref;
      Ok ref in
    match ref with
    | Ok ref => add (ORecord ref) collection
    | Raise e => (Raise e, collection)
    end.

(** The [for row in reader] loop with its [except (KeyError, ValueError)]. *)
Fixpoint load_rows (rows : list (gmap string (option string)))
  (collection : ReferenceCollection) : result (option ReferenceCollection) :=
  match rows with
  | [] => Ok (Some collection)
  | row :: rest =>
    match load_row row collection with
    | (Ok _, collection') => load_rows rest collection'
    | (Raise KeyError, _) | (Raise ValueError, _) => Ok None
    | (Raise e, _) => Raise e
    end
  end.

(** [open(filename, 'r', encoding='utf-8-sig')]: of what [open] may raise
    the model has [FileNotFoundError], the one the program handles; a file
    that is there is taken to be one the program may read. *)
Definition open_read (filename : string) (fs : filesystem) : result table :=
  match fs !! filename with
  | Some t => Ok t
  | None => Raise FileNotFoundError
  end.

(** [ReferenceCollection.from_csv(filename)]: [Ok None] is the [None]
    it returns, [Raise] an exception it lets through.  What it prints is
    left out. *)
Definition from_csv (filename : string) (fs : filesystem)
  : result (option ReferenceCollection) :=
  match open_read filename fs with
  | Ok t => load_rows (DictReader t) new_collection
  | Raise FileNotFoundError => Ok None
  | Raise e => Raise e
  end.

(** What [csv.writer] writes for a value: nothing for [None], the
    string itself, [str(v)] for the rest. *)
Definition write_cell (v : value) : string :=
  match v with
  | VNone => ""
  | VBool b => if b then "True" else "False"
  | VStr s => s
  | VFloat f => float_repr f
  end.

(** [DictWriter.writerow(rowdict)]: the values under the field names, in
    their order, an absent one as the empty string.  ([to_dict] has no
    key outside the field names, so the writer's check for extra keys
    passes.) *)
Definition writerow (fieldnames : list string) (rowdict : gmap string value)
  : list string :=
  (fun k => write_cell (default (VStr "") (rowdict !! k))) <$> fieldnames.

(** A written row as a later read yields it: the file is written with
    [newline=''], so a cell goes to disk as it is, and is read with
    universal newlines. *)
Definition read_back (row : list string) : list string :=
  universal_newlines <$> row.

(** [self.save_to_csv(filename)]: the file system afterwards; what is
    printed is left out.  When [open] raises, the [except Exception]
    clause catches it and no file has been touched.  Otherwise the file is
    replaced by the header and one row for each Record.  (A failure after
    [open], as of a disk that fills up, would be caught as well and leave
    a truncated file; it is not modelled.  Where a cell is longer than
    [field_size_limit] the file written is one [csv.reader] refuses: the
    table stored here is then not [readable], see below.) *)
Definition save_to_csv (filename : string) (self : ReferenceCollection)
  (fs : filesystem) : filesystem :=
  match _data self with
  | [] => fs
  | _ =>
    match open_for_writing filename with
    | Raise _ => fs
    | Ok _ =>
      <[filename :=
          read_back header
          :: (read_back ∘ writerow header ∘ to_dict <$> _data self)]> fs
    end
  end.
End csv.

(** ** Vocabulary of the statements *)

(** [validate()] returns without raising. *)
Definition valid (r : StudentReference) : Prop := validate r = Ok tt.

Definition str_key (v : value) : Prop := ∃ s, v = VStr s.
Definition float_key (v : value) : Prop := ∃ f, v = VFloat f ∧ f ≠ S754_nan.
Definition nonempty_str (v : value) : Prop := ∃ s, v = VStr s ∧ s ≠ "".
Definition has_float_stipend (r : StudentReference) : Prop :=
  ∃ f, stipend r = VFloat f.

(** A Record of the data model: four non-empty texts and a float stipend
    that [validate] accepts. *)
Definition data_record (r : StudentReference) : Prop :=
  nonempty_str (id r) ∧ nonempty_str (date r) ∧ nonempty_str (full_name r) ∧
  (∃ f, stipend r = VFloat f ∧ truthy (VFloat f) = true) ∧
  nonempty_str (destination r).

(** Field-for-field equality of two Records. *)
Definition same_fields (r1 r2 : StudentReference) : Prop :=
  id r1 = id r2 ∧ date r1 = date r2 ∧ full_name r1 = full_name r2 ∧
  stipend r1 = stipend r2 ∧ destination r1 = destination r2.

(** A text field as it is read back from a file it was written to. *)
Definition text_read_back (v : value) : value :=
  match v with
  | VStr s => VStr (universal_newlines s)
  | _ => v
  end.

(** The Record [from_csv] makes of the row [save_to_csv] wrote for [r]. *)
Definition reloaded (r : StudentReference) : StudentReference :=
  mkStudentReference (VBool true)
    (text_read_back (id r)) (text_read_back (date r))
    (text_read_back (full_name r)) (stipend r)
    (text_read_back (destination r)) ∅.

(** Text without a carriage return. *)
Fixpoint has_CR (s : string) : bool :=
  match s with
  | EmptyString => false
  | String a s' => Ascii.eqb a CR || has_CR s'
  end.

Definition no_CR (v : value) : Prop := ∀ s, v = VStr s → has_CR s = false.

(** No text field of [r] has a carriage return. *)
Definition text_without_CR (r : StudentReference) : Prop :=
  no_CR (id r) ∧ no_CR (date r) ∧ no_CR (full_name r) ∧ no_CR (destination r).

(** A cell [csv.reader] yields: text read with universal newlines, within
    the reader's limit. *)
Definition readable_cell (cell : string) : Prop :=
  has_CR cell = false ∧ (len cell ≤ field_size_limit)%N.

(** A table [csv.reader] yields of some file. *)
Definition readable (t : table) : Prop := Forall (Forall readable_cell) t.

(** The cells written for [r] are within the reader's limit when they
    are read back. *)
Definition within_field_limit `{FloatText} (r : StudentReference) : Prop :=
  Forall (fun v => (len (universal_newlines (write_cell v)) ≤ field_size_limit)%N)
         [id r; date r; full_name r; stipend r; destination r].

(** [float] gives [f] back from [repr(f)] as it is read from a file, for
    the stipend [f] of [r]. *)
Definition stipend_text_roundtrip `{FloatText} (r : StudentReference) : Prop :=
  ∀ f, stipend r = VFloat f →
       float_of_str (universal_newlines (float_repr f)) = Some f.

(** IEEE [f > x]. *)
Definition float_gt (f x : spec_float) : bool :=
  match SFcompare f x with
  | Some Gt => true
  | _ => false
  end.

Definition stipend_above (x : spec_float) (r : StudentReference) : bool :=
  match stipend r with
  | VFloat f => float_gt f x
  | _ => false
  end.

(** [a > b] where Python defines it for the values of the program: between
    two numbers, and between two texts in the order of their code
    points. *)
Definition value_gt (a b : value) : option bool :=
  match a, b with
  | VStr s1, VStr s2 =>
    Some match String.compare s1 s2 with Gt => true | _ => false end
  | VStr _, _ | _, VStr _ => None
  | _, _ =>
    match as_number a, as_number b with
    | Some x, Some y => Some (float_gt x y)
    | _, _ => None
    end
  end.

(** The stipend of [r] can be compared with [threshold], resp. is greater
    than it. *)
Definition stipend_comparable (threshold : value) (r : StudentReference) : Prop :=
  is_Some (value_gt (stipend r) threshold).
Definition stipend_over (threshold : value) (r : StudentReference) : Prop :=
  value_gt (stipend r) threshold = Some true.

#[global] Instance stipend_over_dec threshold r :
  Decision (stipend_over threshold r).
Proof. unfold stipend_over. apply _. Defined.

(** Strict [<] on keys as a boolean, a comparison that raises counting
    as false. *)
Definition key_lt (a b : value) : bool :=
  match py_lt a b with
  | Ok true => true
  | _ => false
  end.

(** Keys that [<] separates neither way: equal, as far as a sort can see. *)
Definition key_tie (a b : value) : bool :=
  negb (key_lt a b) && negb (key_lt b a).

(** A set of keys on which [<] never raises and is a strict weak order,
    with [<=] its complement read backwards. *)
Record ordered_keys (D : value → Prop) : Prop := {
  ok_lt a b : D a → D b → py_lt a b = Ok (key_lt a b);
  ok_le a b : D a → D b → py_le a b = Ok (negb (key_lt b a));
  ok_asym a b : D a → D b → key_lt a b = true → key_lt b a = false;
  ok_negtrans a b c :
    D a → D b → D c → key_lt a c = true →
    key_lt a b = true ∨ key_lt b c = true;
}.

Section sorted_by_key.
Context {A : Type} (key : A → value).

(** The insertion of [insert_back] without its error paths. *)
Fixpoint insert_pure (x : A) (before : list A) : list A :=
  match before with
  | [] => [x]
  | y :: before' =>
    if key_lt (key x) (key y) then y :: insert_pure x before' else x :: before
  end.

(** Non-decreasing keys, read with Python's [<=]. *)
Definition nondecreasing : list A → Prop :=
  StronglySorted (fun a b => py_le (key a) (key b) = Ok true).

(** No element is less than one before it, resp. after it. *)
Definition ascending : list A → Prop :=
  StronglySorted (fun a b => key_lt (key b) (key a) = false).
Definition descending : list A → Prop :=
  StronglySorted (fun a b => key_lt (key a) (key b) = false).

(** The elements whose key ties with [k], in the order of the list. *)
Definition tied (k : value) (l : list A) : list A :=
  filter (fun a => key_tie k (key a) = true) l.
End sorted_by_key.

(** The Collections the program builds: the empty one, what [from_csv]
    returns, and from those what [add] leaves when every Record handed to
    it has passed [validate] (as [from_csv] and the menu do before they
    call it) and what [sort_by] leaves. *)
Inductive program_built `{FloatText} : ReferenceCollection → Prop :=
  | built_new : program_built new_collection
  | built_from_csv filename fs c :
      from_csv filename fs = Ok (Some c) → program_built c
  | built_add c item :
      program_built c →
      (∀ r, item = ORecord r → validate r = Ok tt) →
      program_built (add item c).2
  | built_sort_by c field :
      program_built c → program_built (sort_by field c).2.

(** [self.name = value] for each pair in turn, an assignment that raises
    leaving the object as it was. *)
Definition assign (self : StudentReference) (nv : string * value)
  : StudentReference :=
  match __setattr__ nv.1 nv.2 self with
  | Ok self' => self'
  | Raise _ => self
  end.

(** ** Sample data *)

#[global] Instance spec_float_eq_dec : EqDecision spec_float.
Proof. solve_decision. Defined.

(** The float nearest to an integer. *)
Definition float_of_Z (z : Z) : spec_float := binary_normalize 53 1024 z 0 false.

Definition f900 : spec_float := Eval vm_compute in float_of_Z 900.
Definition f1000 : spec_float := Eval vm_compute in float_of_Z 1000.
Definition f1500 : spec_float := Eval vm_compute in float_of_Z 1500.
Definition f2000 : spec_float := Eval vm_compute in float_of_Z 2000.
Definition f1 : spec_float := Eval vm_compute in float_of_Z 1.
Definition f2 : spec_float := Eval vm_compute in float_of_Z 2.

(** [float] and [repr] on the handful of literals the samples use. *)
Definition sample_literals : list (string * spec_float) :=
  [("900.0", f900); ("1500.0", f1500); ("2000.0", f2000);
   ("1.0", f1); ("2.0", f2); ("0.0", S754_zero false); ("nan", S754_nan)].

Definition sample_text : FloatText := {|
  float_of_str s :=
    (fun ip => ip.2.2) <$> list_find (fun p => p.1 = s) sample_literals;
  float_repr f :=
    default "" ((fun ip => ip.2.1) <$> list_find (fun p => p.2 = f) sample_literals);
|}.

Definition sample_record (i n : string) (s : spec_float) : StudentReference :=
  __init__ (<["destination" := VStr "деканат"]>
           (<["stipend" := VFloat s]>
           (<["full_name" := VStr n]>
           (<["date" := VStr "01.09.2024"]>
           (<["id" := VStr i]> ∅))))).

Definition sample_collection : ReferenceCollection :=
  mkCollection [sample_record "1" "Петров" f900;
                sample_record "2" "Иванов" f1500;
                sample_record "3" "Сидоров" f2000].

(** A stipend column that reads [2.0], [nan], [1.0]. *)
Definition nan_collection : ReferenceCollection :=
  mkCollection [sample_record "1" "А" f2;
                sample_record "2" "Б" S754_nan;
                sample_record "3" "В" f1].

Definition sample_table : table :=
  [header;
   ["1"; "01.09.2024"; "Петров"; "900.0"; "деканат"];
   ["2"; "01.09.2024"; "Иванов"; "1500.0"; "деканат"];
   ["3"; "01.09.2024"; "Сидоров"; "2000.0"; "деканат"]].

(** The file [nan_collection] is loaded from. *)
Definition nan_table : table :=
  [header;
   ["1"; "01.09.2024"; "А"; "2.0"; "деканат"];
   ["2"; "01.09.2024"; "Б"; "nan"; "деканат"];
   ["3"; "01.09.2024"; "В"; "1.0"; "деканат"]].

(** A Record whose name has a carriage return in it. *)
Definition CR_collection : ReferenceCollection :=
  mkCollection [sample_record "1" ("A" +:+ String CR "B") f900].

(** A Record that passes [validate] with a text for its stipend, and a
    Collection that holds it. *)
Definition text_stipend_record : StudentReference :=
  __init__ (<["destination" := VStr "деканат"]>
           (<["stipend" := VStr "много"]>
           (<["full_name" := VStr "Петров"]>
           (<["date" := VStr "01.09.2024"]>
           (<["id" := VStr "1"]> ∅))))).

Definition text_stipend_collection : ReferenceCollection :=
  mkCollection [text_stipend_record; sample_record "2" "Иванов" f1500].

(** A file whose only data row stops after the date. *)
Definition short_row_table : table :=
  [header; ["1"; "01.09.2024"]].


(** ** The rest of the program *)

(** [self.name] read off an instance. *)
Definition getattr (name : string) (self : StudentReference) : result value :=
  if String.eqb name "_initialized" then Ok (_initialized self)
  else if String.eqb name "id" then Ok (id self)
  else if String.eqb name "date" then Ok (date self)
  else if String.eqb name "full_name" then Ok (full_name self)
  else if String.eqb name "stipend" then Ok (stipend self)
  else if String.eqb name "destination" then Ok (destination self)
  else match other_attrs self !! name with
       | Some v => Ok v
       | None => Raise AttributeError
       end.

(** *** Iteration

    [__iter__] stores its cursor in the attribute [_index] of the
    collection itself and returns the collection, which is thus its own
    iterator.  The attribute does not exist before the first [__iter__]. *)
Record iterated := mkIterated {
  it_self : ReferenceCollection;
  _index : option nat;
}.

(** What [__next__] does: return an element, raise [StopIteration], or
    raise something else. *)
Inductive next_result :=
  | Yield (r : StudentReference)
  | StopIteration
  | NextRaise (e : exn).

(** A collection on which [__iter__] has not run yet. *)
Definition not_iterated (c : ReferenceCollection) : iterated := mkIterated c None.

Definition __iter__ (self : iterated) : iterated :=
  mkIterated (it_self self) (Some 0%nat).

Definition __next__ (self : iterated) : next_result * iterated :=
  match _index self with
  | None => (NextRaise AttributeError, self)
  | Some i =>
    if bool_decide (i < length (_data (it_self self)))%nat then
      match _data (it_self self) !! i with
      | Some result => (Yield result, mkIterated (it_self self) (Some (i + 1)%nat))
      | None => (NextRaise IndexError, self)
      end
    else (StopIteration, self)
  end.

(** [next] called until it raises, at most [fuel] times: the elements it
    returned, how it ended ([None] when the calls ran out first), and the
    collection afterwards. *)
Fixpoint next_until_stop (fuel : nat) (self : iterated)
  : list StudentReference * option next_result * iterated :=
  match fuel with
  | O => ([], None, self)
  | S fuel' =>
    match __next__ self with
    | (Yield r, self') =>
      let '(rs, e, self'') := next_until_stop fuel' self' in (r :: rs, e, self'')
    | (e, self') => ([], Some e, self')
    end
  end.

(** [for item in self: ...] with a body that leaves the collection alone:
    the items the body sees. *)
Definition for_loop (fuel : nat) (self : iterated)
  : list StudentReference * option next_result * iterated :=
  next_until_stop fuel (__iter__ self).

(** [add] on the collection that is being iterated. *)
Definition it_add (item : pyobj) (self : iterated) : result unit * iterated :=
  let '(r, c) := add item (it_self self) in (r, mkIterated c (_index self)).

(** *** What from_csv makes of a row *)

(** The Record a row stands for: its cells under the five names, the
    stipend cell as [float] reads it. *)
Definition record_of_row `{FloatText} (row : gmap string (option string))
  : option StudentReference :=
  i ← row !! "№";
  d ← row !! "дата";
  n ← row !! "ФИО студента";
  c ← row !! "размер стипендии";
  s ← c;
  f ← float_of_str s;
  t ← row !! "куда выдается справка";
  Some (mkStudentReference (VBool true) (cell_value i) (cell_value d)
          (cell_value n) (VFloat f) (cell_value t) ∅).

(** A constructed Record of the data model. *)
Definition constructed (r : StudentReference) : Prop :=
  _initialized r = VBool true ∧ other_attrs r = ∅.

(** *** main

    The menu loop, with the lines typed at the prompts as a list and the
    console output left out: [print] is taken to return, the exceptions
    a closed or wrongly encoded console would raise in it are not
    modelled.  [collection] is [None] until a load succeeds. *)

Record world := mkWorld {
  collection : option ReferenceCollection;
  files : filesystem;
  stdin : list string;
}.

(** How [main] ends: it returns, an exception leaves it, or [input] finds
    no more lines and raises [EOFError]. *)
Inductive halt :=
  | Returned
  | Uncaught (e : exn)
  | EOFError.

Definition set_collection (c : option ReferenceCollection) (w : world) : world :=
  mkWorld c (files w) (stdin w).

(** [input(prompt)] *)
Definition input (w : world) : option (string * world) :=
  match stdin w with
  | [] => None
  | line :: rest => Some (line, mkWorld (collection w) (files w) rest)
  end.

Section main.
Context `{FloatText} `{Directories}.

(** Choices 3 and 4. *)
Definition sort_choice (field : string) (w : world) : world + halt * world :=
  match collection w with
  | None => inl w
  | Some c =>
    let '(r, c') := sort_by (OValue (VStr field)) c in
    match r with
    | Ok _ => inl (set_collection (Some c') w)
    | Raise e => inr (Uncaught e, set_collection (Some c') w)
    end
  end.

(** Choice 5: only [ValueError] is caught. *)
Definition filter_choice (w : world) : world + halt * world :=
  match input w with
  | None => inr (EOFError, w)
  | Some (x, w) =>
    match float_of_str x with
    | None => inl w
    | Some x =>
      match collection w with
      | None => inr (Uncaught AttributeError, w)
      | Some c =>
        let '(g, c') := filter_by_stipend (VFloat x) c in
        match raised g with
        | None | Some ValueError => inl (set_collection (Some c') w)
        | Some e => inr (Uncaught e, set_collection (Some c') w)
        end
      end
    end
  end.

(** Choice 6: every exception is caught, [EOFError] included, and the
    loop goes on with the lines that are left. *)
Definition add_choice (w : world) : world :=
  match input w with
  | None => w
  | Some (i, w) =>
  match input w with
  | None => w
  | Some (d, w) =>
  match input w with
  | None => w
  | Some (n, w) =>
  match input w with
  | None => w
  | Some (s, w) =>
  match float_of_str s with
  | None => w
  | Some s =>
  match input w with
  | None => w
  | Some (t, w) =>
    let new_ref := __init__ (<["destination" := VStr t]>
                            (<["stipend" := VFloat s]>
                            (<["full_name" := VStr n]>
                            (<["date" := VStr d]>
                            (<["id" := VStr i]> ∅))))) in
    match validate new_ref with
    | Raise _ => w
    | Ok _ =>
      match collection w with
      | None => w
      | Some c => set_collection (Some (add (ORecord new_ref) c).2) w
      end
    end
  end end end end end end.

(** One turn of the [while True] loop: the world the next turn starts
    from, or how [main] ends. *)
Definition menu_step (w : world) : world + halt * world :=
  match input w with
  | None => inr (EOFError, w)
  | Some (choice, w) =>
    if String.eqb choice "1" then
      match input w with
      | None => inr (EOFError, w)
      | Some (path, w) =>
        match os_listdir path with
        | Ok _ => inl w
        | Raise e => inr (Uncaught e, w)
        end
      end
    else if String.eqb choice "2" then
      match from_csv "data.csv" (files w) with
      | Ok c => inl (set_collection c w)
      | Raise e => inr (Uncaught e, w)
      end
    else if String.eqb choice "3" then sort_choice "name" w
    else if String.eqb choice "4" then sort_choice "stipend" w
    else if String.eqb choice "5" then filter_choice w
    else if String.eqb choice "6" then inl (add_choice w)
    else if String.eqb choice "7" then
      match collection w with
      | None => inl w
      | Some c =>
        inl (mkWorld (collection w) (save_to_csv "data.csv" c (files w)) (stdin w))
      end
    else if String.eqb choice "8" then inr (Returned, w)
    else inl w
  end.

(** A turn after which the loop goes on. *)
Definition turn (w w' : world) : Prop := menu_step w = inl w'.

(** The turns in which an exception [e] leaves [main], with the lines
    [rest] unread: choice 1 with a path for which [os.listdir] raises,
    choice 2 when [from_csv] lets an exception through, and choice 5 with
    a number while [collection] is [None]. *)
Definition raising_turn (w : world) (e : exn) (rest : list string) : Prop :=
  (∃ path, stdin w = "1" :: path :: rest ∧ os_listdir path = Raise e) ∨
  (stdin w = "2" :: rest ∧ from_csv "data.csv" (files w) = Raise e) ∨
  (∃ x f, stdin w = "5" :: x :: rest ∧ float_of_str x = Some f ∧
          collection w = None ∧ e = AttributeError).

Fixpoint main_loop (fuel : nat) (w : world) : option (halt * world) :=
  match fuel with
  | O => None
  | S fuel' =>
    match menu_step w with
    | inl w' => main_loop fuel' w'
    | inr h => Some h
    end
  end.

(** [main()] started with the files and the typed lines given: every turn
    reads a line, so one turn more than there are lines is enough. *)
Definition main (fs : filesystem) (lines : list string) : option (halt * world) :=
  main_loop (S (length lines)) (mkWorld None fs lines).
End main.

(** What holds of the world all along a run of [main] started with the
    files [fs0] and the typed lines [lines0]: the Records held are Records
    of the data model, no file but [data.csv] has changed, and the lines
    still to be read are the last of those typed. *)
Definition world_ok (fs0 : filesystem) (lines0 : list string) (w : world)
  : Prop :=
  (∀ c, collection w = Some c →
        Forall (fun r => data_record r ∧ constructed r) (_data c)) ∧
  (∀ path, path ≠ "data.csv" → files w !! path = fs0 !! path) ∧
  stdin w `suffix_of` lines0.

(** How a run may end: by choice 8; by [EOFError] with every line read;
    or by an exception that [os.listdir] or [from_csv] raised, or the
    [AttributeError] of choice 5 on the [None] that [collection] still
    is. *)
Definition halt_ok `{FloatText} `{Directories} (lines0 : list string)
    (h : halt) (w : world) : Prop :=
  match h with
  | Returned => "8" ∈ lines0
  | EOFError => stdin w = []
  | Uncaught e =>
    (e = AttributeError ∧ collection w = None) ∨
    (∃ path, path ∈ lines0 ∧ os_listdir path = Raise e) ∨
    from_csv "data.csv" (files w) = Raise e
  end.

(** A machine without directories to list or to write into: a file can
    be written under a plain name, and a path through a directory is not
    found. *)
Definition no_directories : Directories :=
  {| os_listdir := fun _ => Raise FileNotFoundError;
     open_for_writing := fun path =>
       if String.eqb path "" then Raise FileNotFoundError
       else match String.index 0 "/" path with
            | Some _ => Raise FileNotFoundError
            | None => Ok tt
            end |}.

(** * Facts *)

(** ** Order on strings and on floats *)

Lemma ascii_compare_trans a b c o :
  Ascii.compare a b = o → Ascii.compare b c = o → Ascii.compare a c = o.
Proof.
  unfold Ascii.compare. intros H1 H2. destruct o.
  - apply N.compare_eq_iff in H1. apply N.compare_eq_iff in H2.
    apply N.compare_eq_iff. congruence.
  - apply N.compare_lt_iff in H1. apply N.compare_lt_iff in H2.
    apply N.compare_lt_iff. by etrans.
  - apply N.compare_gt_iff in H1. apply N.compare_gt_iff in H2.
    apply N.compare_gt_iff. by etrans.
Qed.

Lemma string_compare_lt_trans s1 : ∀ s2 s3,
  String.compare s1 s2 = Lt → String.compare s2 s3 = Lt →
  String.compare s1 s3 = Lt.
Proof.
  induction s1 as [|a s1 IH]; intros [|b s2] [|c s3]; simpl; try done.
  destruct (Ascii.compare a b) eqn:Hab; try done;
  destruct (Ascii.compare b c) eqn:Hbc; try done.
  - rewrite (ascii_compare_trans _ _ _ _ Hab Hbc). apply IH.
  - apply Ascii.compare_eq_iff in Hab as ->. by rewrite Hbc.
  - apply Ascii.compare_eq_iff in Hbc as <-. by rewrite Hab.
  - by rewrite (ascii_compare_trans _ _ _ _ Hab Hbc).
Qed.

Lemma string_ltb_asym s1 s2 :
  String.ltb s1 s2 = true → String.ltb s2 s1 = false.
Proof.
  unfold String.ltb. rewrite (String.compare_antisym s1 s2).
  by destruct (String.compare s2 s1).
Qed.

Lemma string_ltb_negtrans s1 s2 s3 :
  String.ltb s1 s3 = true → String.ltb s1 s2 = true ∨ String.ltb s2 s3 = true.
Proof.
  unfold String.ltb. intros H13.
  destruct (String.compare s1 s2) eqn:H12; [|by left|].
  - apply String.compare_eq_iff in H12 as <-. by right.
  - right. rewrite String.compare_antisym in H12.
    destruct (String.compare s2 s1) eqn:H21; try done.
    destruct (String.compare s1 s3) eqn:H13'; try done.
    by rewrite (string_compare_lt_trans _ _ _ H21 H13').
Qed.

Lemma string_leb_ltb s1 s2 : String.leb s1 s2 = negb (String.ltb s2 s1).
Proof.
  unfold String.leb, String.ltb. rewrite (String.compare_antisym s1 s2).
  by destruct (String.compare s2 s1).
Qed.

Ltac float_order :=
  unfold float_gt, SFltb, SFleb, SFeqb, SFcompare;
  repeat match goal with
  | |- context [Z.compare ?a ?b] => destruct (Z.compare_spec a b); subst
  | |- context [Pos.compare_cont Eq ?a ?b] =>
    change (Pos.compare_cont Eq a b) with (Pos.compare a b);
    destruct (Pos.compare_spec a b); subst
  end; simpl; try done; try lia.

Lemma SFltb_asym x y : SFltb x y = true → SFltb y x = false.
Proof.
  destruct x as [[]|[]| |[] mx ex], y as [[]|[]| |[] my ey]; float_order.
Qed.

Lemma SFltb_negtrans x y z :
  y ≠ S754_nan → SFltb x z = true → SFltb x y = true ∨ SFltb y z = true.
Proof.
  destruct x as [[]|[]| |[] mx ex], y as [[]|[]| |[] my ey],
    z as [[]|[]| |[] mz ez]; try done; intros _; float_order; auto.
Qed.

Lemma SFleb_ltb x y :
  x ≠ S754_nan → y ≠ S754_nan → SFleb x y = negb (SFltb y x).
Proof.
  destruct x as [[]|[]| |[] mx ex], y as [[]|[]| |[] my ey]; try done;
    intros _ _; float_order.
Qed.

(** [x < f] and [f > x] are one comparison, NaN included. *)
Lemma SFltb_float_gt x f : SFltb x f = float_gt f x.
Proof.
  destruct x as [[]|[]| |[] mx ex], f as [[]|[]| |[] mf ef]; float_order.
Qed.

Lemma str_keys_ordered : ordered_keys str_key.
Proof.
  split.
  - intros _ _ [s1 ->] [s2 ->]. unfold key_lt. simpl.
    by destruct (String.ltb s1 s2).
  - intros _ _ [s1 ->] [s2 ->]. unfold key_lt. simpl.
    rewrite string_leb_ltb. by destruct (String.ltb s2 s1).
  - intros _ _ [s1 ->] [s2 ->]. unfold key_lt. simpl.
    intros H. destruct (String.ltb s1 s2) eqn:E; [|done].
    by rewrite (string_ltb_asym _ _ E).
  - intros _ _ _ [s1 ->] [s2 ->] [s3 ->]. unfold key_lt. simpl.
    intros H. destruct (String.ltb s1 s3) eqn:E; [|done].
    destruct (string_ltb_negtrans s1 s2 s3 E) as [-> | ->]; auto.
Qed.

Lemma float_keys_ordered : ordered_keys float_key.
Proof.
  split.
  - intros _ _ [x [-> ?]] [y [-> ?]]. unfold key_lt. simpl.
    by destruct (SFltb x y).
  - intros _ _ [x [-> ?]] [y [-> ?]]. unfold key_lt. simpl.
    rewrite SFleb_ltb by done. by destruct (SFltb y x).
  - intros _ _ [x [-> ?]] [y [-> ?]]. unfold key_lt. simpl.
    intros H1. destruct (SFltb x y) eqn:E; [|done].
    by rewrite (SFltb_asym _ _ E).
  - intros _ _ _ [x [-> ?]] [y [-> ?]] [z [-> ?]]. unfold key_lt. simpl.
    intros H2. destruct (SFltb x z) eqn:E; [|done].
    destruct (SFltb_negtrans x y z) as [-> | ->]; auto.
Qed.

(** ** The sort *)

Section sort_any_keys.
Context {A : Type} (key : A → value).

Lemma insert_back_perm x before l :
  insert_back key x before = Ok l → l ≡ₚ x :: before.
Proof.
  revert l. induction before as [|y before IH]; simpl; intros l Hl.
  - by inversion Hl.
  - destruct (py_lt (key x) (key y)) as [[]|]; simpl in Hl; [|by inversion Hl|done].
    destruct (insert_back key x before) as [l'|]; simpl in Hl; [|done].
    inversion Hl. rewrite (IH l' eq_refl). apply Permutation_swap.
Qed.

(** Whatever the keys are, and whether a comparison raises or not, the
    list holds the same elements afterwards. *)
Lemma sort_loop_perm todo : ∀ before,
  (sort_loop key before todo).2 ≡ₚ before ++ todo.
Proof.
  induction todo as [|x todo IH]; intros before; simpl.
  - by rewrite app_nil_r, reverse_Permutation.
  - destruct (insert_back key x before) as [before'|] eqn:Hi; simpl.
    + rewrite IH, (insert_back_perm _ _ _ Hi). simpl. apply Permutation_middle.
    + by rewrite reverse_Permutation.
Qed.

Lemma list_sort_perm l : (list_sort key l).2 ≡ₚ l.
Proof. apply (sort_loop_perm l []). Qed.
End sort_any_keys.

Section sort_ordered_keys.
Context {A : Type} (key : A → value) (D : value → Prop).
Hypothesis HD : ordered_keys D.

Local Abbreviation keys_in l := (Forall (fun a => D (key a)) l).
Local Abbreviation lt x y := (key_lt (key x) (key y)).
Local Abbreviation insert_all before todo :=
  (foldl (fun b x => insert_pure key x b) before todo).

Lemma insert_back_pure x before :
  keys_in (x :: before) →
  insert_back key x before = Ok (insert_pure key x before).
Proof.
  intros Hk. apply Forall_cons in Hk as [Hx Hb].
  induction Hb as [|y before Hy Hb IH]; simpl; [done|].
  rewrite (ok_lt D HD) by done. simpl.
  destruct (lt x y); [|done]. by rewrite IH.
Qed.

Lemma insert_pure_perm x before : insert_pure key x before ≡ₚ x :: before.
Proof.
  induction before as [|y before IH]; simpl; [done|].
  destruct (lt x y); [|done]. rewrite IH. apply Permutation_swap.
Qed.

Lemma insert_pure_keys x before :
  keys_in (x :: before) → keys_in (insert_pure key x before).
Proof. intros Hk. by rewrite insert_pure_perm. Qed.

Lemma sort_loop_pure todo : ∀ before,
  keys_in (before ++ todo) →
  sort_loop key before todo = (Ok tt, reverse (insert_all before todo)).
Proof.
  induction todo as [|x todo IH]; intros before Hk; simpl; [done|].
  rewrite Forall_app in Hk. destruct Hk as [Hb Ht].
  apply Forall_cons in Ht as [Hx Ht].
  rewrite insert_back_pure by (by constructor).
  apply IH. rewrite Forall_app. split; [|done].
  apply insert_pure_keys. by constructor.
Qed.

Lemma insert_all_perm todo : ∀ before,
  insert_all before todo ≡ₚ before ++ todo.
Proof.
  induction todo as [|x todo IH]; intros before; simpl.
  - by rewrite app_nil_r.
  - rewrite IH, insert_pure_perm. simpl. apply Permutation_middle.
Qed.

Lemma insert_pure_descending x before :
  keys_in (x :: before) → descending key before →
  descending key (insert_pure key x before).
Proof.
  intros Hk. apply Forall_cons in Hk as [Hx Hb]. unfold descending.
  induction Hb as [|y before Hy Hb IH]; simpl; intros Hs.
  - repeat constructor.
  - apply StronglySorted_cons in Hs as [Hall Hs].
    destruct (lt x y) eqn:Hxy.
    + apply StronglySorted_cons. split; [|by apply IH].
      rewrite insert_pure_perm. constructor; [|done].
      by apply (ok_asym D HD).
    + apply StronglySorted_cons. split; [|by apply StronglySorted_cons].
      constructor; [done|].
      rewrite Forall_forall in Hall, Hb. apply Forall_forall. intros z Hz.
      destruct (lt x z) eqn:Hxz; [|done].
      destruct (ok_negtrans D HD (key x) (key y) (key z)) as [H1|H1];
        auto; [congruence|]. rewrite Hall in H1; done.
Qed.

Lemma insert_all_descending todo : ∀ before,
  keys_in (before ++ todo) → descending key before →
  descending key (insert_all before todo).
Proof.
  induction todo as [|x todo IH]; intros before Hk Hs; simpl; [done|].
  rewrite Forall_app in Hk. destruct Hk as [Hb Ht].
  apply Forall_cons in Ht as [Hx Ht].
  apply IH.
  - rewrite Forall_app. split; [|done]. apply insert_pure_keys. by constructor.
  - apply insert_pure_descending; [by constructor|done].
Qed.

Lemma descending_reverse l : descending key l → ascending key (reverse l).
Proof.
  unfold descending, ascending. induction 1 as [|x l Hs IH Hall].
  - constructor.
  - rewrite reverse_cons. apply StronglySorted_app_2; [|done|repeat constructor].
    intros a b Ha Hb. apply list_elem_of_singleton in Hb as ->.
    rewrite Forall_forall in Hall. apply Hall. by apply elem_of_reverse.
Qed.

Lemma ascending_nondecreasing l :
  keys_in l → ascending key l → nondecreasing key l.
Proof.
  unfold ascending, nondecreasing. intros Hk Hs.
  induction Hs as [|x l Hs IH Hall]; [constructor|].
  apply Forall_cons in Hk as [Hx Hk]. constructor; [by apply IH|].
  rewrite Forall_forall in Hall, Hk. apply Forall_forall. intros y Hy.
  rewrite (ok_le D HD) by auto. by rewrite Hall.
Qed.

Lemma insert_pure_tied k x before :
  D k → keys_in (x :: before) →
  tied key k (insert_pure key x before) = tied key k (x :: before).
Proof.
  intros Hk Hkeys. apply Forall_cons in Hkeys as [Hx Hb]. unfold tied.
  induction Hb as [|y before Hy Hb IH]; simpl; [done|].
  destruct (lt x y) eqn:Hxy; [|done].
  rewrite filter_cons, IH, !filter_cons.
  destruct (decide (key_tie k (key y) = true)) as [Ty|Ty]; [|done].
  destruct (decide (key_tie k (key x) = true)) as [Tx|Tx]; [|done].
  exfalso. unfold key_tie in Tx, Ty.
  apply andb_true_iff in Tx as [Tx1 Tx2], Ty as [Ty1 Ty2].
  apply negb_true_iff in Tx1, Tx2, Ty1, Ty2.
  destruct (ok_negtrans D HD (key x) k (key y)); auto; congruence.
Qed.

Lemma insert_all_tied k todo : ∀ before,
  D k → keys_in (before ++ todo) →
  tied key k (insert_all before todo) = tied key k (reverse todo ++ before).
Proof.
  induction todo as [|x todo IH]; intros before Hk Hkeys; simpl; [done|].
  rewrite Forall_app in Hkeys. destruct Hkeys as [Hb Ht].
  apply Forall_cons in Ht as [Hx Ht].
  rewrite IH; [|done|].
  - unfold tied. rewrite reverse_cons, <-app_assoc, !filter_app. f_equal.
    fold (tied key k (insert_pure key x before)).
    rewrite insert_pure_tied; [|done|by constructor].
    unfold tied. change (x :: before) with ([x] ++ before).
    by rewrite filter_app.
  - rewrite Forall_app. split; [|done]. apply insert_pure_keys. by constructor.
Qed.

Lemma insert_all_sorted todo : ∀ before,
  ascending key (reverse before ++ todo) →
  insert_all before todo = reverse todo ++ before.
Proof.
  induction todo as [|x todo IH]; intros before Hs; simpl; [done|].
  assert (insert_pure key x before = x :: before) as ->.
  { destruct before as [|y before]; simpl; [done|].
    unfold ascending in Hs. rewrite reverse_cons, <-app_assoc in Hs.
    apply StronglySorted_app_1_r, StronglySorted_cons in Hs as [Hall _].
    apply Forall_cons in Hall as [-> _]. done. }
  rewrite IH.
  - by rewrite reverse_cons, <-app_assoc.
  - by rewrite reverse_cons, <-app_assoc.
Qed.

(** On ordered keys the sort raises nothing and leaves a stable, sorted
    permutation, which sorting again does not change. *)
Lemma list_sort_ordered l :
  keys_in l →
  ∃ l', list_sort key l = (Ok tt, l') ∧
        l' ≡ₚ l ∧
        nondecreasing key l' ∧
        (∀ k, D k → tied key k l' = tied key k l) ∧
        list_sort key l' = (Ok tt, l').
Proof.
  intros Hk. unfold list_sort.
  assert (keys_in ([] ++ l)) as Hk' by done.
  rewrite (sort_loop_pure l [] Hk').
  set (b := foldl _ [] l).
  assert (b ≡ₚ l) as Hp by apply (insert_all_perm l []).
  assert (descending key b) as Hd.
  { apply insert_all_descending; [done|constructor]. }
  assert (keys_in (reverse b)) as Hkb by (by rewrite reverse_Permutation, Hp).
  eexists. split; [done|]. split; [by rewrite reverse_Permutation|].
  split; [by apply ascending_nondecreasing, descending_reverse|]. split.
  - intros k Dk. unfold tied at 1. rewrite filter_reverse.
    fold (tied key k b). unfold b.
    rewrite insert_all_tied by done. unfold tied.
    by rewrite app_nil_r, filter_reverse, reverse_involutive.
  - rewrite sort_loop_pure by done.
    rewrite insert_all_sorted.
    + by rewrite app_nil_r, reverse_involutive.
    + simpl. by apply descending_reverse.
Qed.
End sort_ordered_keys.

(** ** StudentReference *)

Lemma truthy_spec v :
  truthy v = true ↔
  v ≠ VNone ∧ v ≠ VBool false ∧ v ≠ VStr "" ∧ ∀ s, v ≠ VFloat (S754_zero s).
Proof.
  split.
  - intros Hv. split; [by intros ->|]. split; [by intros ->|].
    split; [by intros ->|]. by intros s ->.
  - intros (Hn & Hb & Hs & Hz).
    destruct v as [|[]|s|[]]; simpl; try done.
    + destruct (String.eqb_spec s ""); [by subst|done].
    + by destruct (Hz s).
Qed.

Lemma validate_ok_iff self :
  validate self = Ok tt ↔
  Forall (fun v => truthy v = true)
    [id self; date self; full_name self; stipend self; destination self].
Proof.
  unfold validate. simpl. rewrite !Forall_cons, Forall_nil.
  destruct (truthy (id self)), (truthy (date self)), (truthy (full_name self)),
    (truthy (stipend self)), (truthy (destination self)); simpl;
    (split; [try done; by intros _|try done; by intros (?&?&?&?&?&_)]).
Qed.

(** C2. [validate()] returns normally exactly when each of [id], [date],
    [full_name], [stipend] and [destination] is truthy, that is neither
    [None] nor empty nor zero; otherwise it raises [ValueError], the
    validation error of the program, and it does so in particular for a
    stipend of [0.0]. *)
Theorem validate_iff_all_fields_truthy (self : StudentReference) :
  (validate self = Ok tt ↔
     Forall (fun v => truthy v = true)
       [id self; date self; full_name self; stipend self; destination self]) ∧
  (validate self = Ok tt ∨ validate self = Raise ValueError) ∧
  validate (object_setattr "stipend" (VFloat (S754_zero false)) self)
    = Raise ValueError.
Proof.
  split; [|split].
  - apply validate_ok_iff.
  - unfold validate. by destruct (negb _); [right|left].
  - destruct self. unfold validate. simpl. by rewrite !andb_false_r.
Qed.

(** The scenario of the specification: a Record built without
    [destination] does not pass [validate]. *)
Example validate_missing_destination :
  validate (__init__ (<["stipend" := VFloat f1500]>
                     (<["full_name" := VStr "Иванов"]>
                     (<["date" := VStr "01.09.2024"]>
                     (<["id" := VStr "1"]> ∅)))))
  = Raise ValueError.
Proof. reflexivity. Qed.

(** An object fresh out of the constructor has its flag set and nothing
    in [__dict__] beyond the six attributes. *)
Lemma init_initialized kwargs : _initialized (__init__ kwargs) = VBool true.
Proof. reflexivity. Qed.

Lemma init_fields kwargs :
  __init__ kwargs =
  mkStudentReference (VBool true)
    (default VNone (kwargs !! "id")) (default VNone (kwargs !! "date"))
    (default VNone (kwargs !! "full_name")) (default VNone (kwargs !! "stipend"))
    (default VNone (kwargs !! "destination")) ∅.
Proof. reflexivity. Qed.

Lemma setattr_keeps_flag name v self self' :
  _initialized self = VBool true →
  __setattr__ name v self = Ok self' → _initialized self' = VBool true.
Proof.
  unfold __setattr__. intros Hini. rewrite Hini. simpl. rewrite andb_true_r.
  destruct (bool_decide (name ∈ _fields)) eqn:Hin; simpl; [|done].
  apply bool_decide_eq_true in Hin. intros [= <-].
  unfold _fields in Hin. rewrite !elem_of_cons in Hin.
  destruct self. simpl in Hini. subst.
  destruct Hin as [->|[->|[->|[->|[->|Hin]]]]]; try done.
  by apply elem_of_nil in Hin.
Qed.

Lemma assign_keeps_flag assignments : ∀ self,
  _initialized self = VBool true →
  _initialized (foldl assign self assignments) = VBool true.
Proof.
  induction assignments as [|[name v] assignments IH]; intros self Hini; [done|].
  simpl. apply IH. unfold assign. simpl.
  destruct (__setattr__ name v self) as [self'|] eqn:Hset; [|done].
  by apply (setattr_keeps_flag name v self).
Qed.

(** C9. On a constructed Record, and after any further assignments made
    to it from outside, assigning an attribute whose name is not one of
    the five fields raises [AttributeError] (and stores nothing). *)
Theorem setattr_outside_fields_raises (kwargs : gmap string value)
    (assignments : list (string * value)) (name : string) (v : value) :
  name ∉ _fields →
  __setattr__ name v (foldl assign (__init__ kwargs) assignments)
    = Raise AttributeError.
Proof.
  intros Hname. unfold __setattr__.
  rewrite assign_keeps_flag by apply init_initialized.
  by rewrite bool_decide_eq_false_2.
Qed.

Lemma setattr_outside_fields_raises_witness :
  __setattr__ "grade" (VStr "A")
    (foldl assign (__init__ ∅) [("stipend", VFloat f900); ("x", VNone)])
    = Raise AttributeError.
Proof.
  apply (setattr_outside_fields_raises ∅
           [("stipend", VFloat f900); ("x", VNone)] "grade" (VStr "A")).
  unfold _fields. rewrite !elem_of_cons, elem_of_nil.
  intros [H|[H|[H|[H|[H|H]]]]]; done.
Defined.

(** ** ReferenceCollection: add and indexing *)

(** C8. [add] of anything that is not a Record raises [TypeError] and
    leaves the Collection, its length and contents, as it was. *)
Theorem add_rejects_non_record (item : pyobj) (self : ReferenceCollection) :
  (∀ r, item ≠ ORecord r) →
  add item self = (Raise TypeError, self) ∧
  length (_data (add item self).2) = length (_data self).
Proof.
  intros Hitem. destruct item as [v|r|c]; simpl; try done.
  by destruct (Hitem r).
Qed.

Lemma add_rejects_non_record_witness :
  add (OValue (VStr "справка")) sample_collection
    = (Raise TypeError, sample_collection) ∧
  length (_data (add (OValue (VStr "справка")) sample_collection).2)
    = length (_data sample_collection).
Proof.
  apply (add_rejects_non_record (OValue (VStr "справка")) sample_collection).
  intros r. discriminate.
Defined.

Lemma list_getitem_in_range {A} (l : list A) (i : Z) :
  (0 ≤ i < Z.of_nat (length l))%Z →
  ∃ x, l !! Z.to_nat i = Some x ∧
       list_getitem l i = Ok x ∧
       list_getitem l (i - Z.of_nat (length l)) = Ok x.
Proof.
  intros Hi. destruct (lookup_lt_is_Some_2 l (Z.to_nat i)) as [x Hx]; [lia|].
  assert ((i <? 0)%Z = false) as Hneg by lia.
  assert ((Z.of_nat (length l) <=? i)%Z = false) as Hle by lia.
  assert ((i - Z.of_nat (length l) <? 0)%Z = true) as Hlow by lia.
  exists x. split; [done|]. unfold list_getitem. split.
  - rewrite Hneg. simpl. by rewrite Hneg, Hle, Hx.
  - rewrite Hlow.
    replace (i - Z.of_nat (length l) + Z.of_nat (length l))%Z with i by lia.
    by rewrite Hneg, Hle, Hx.
Qed.

Lemma list_getitem_out_of_range {A} (l : list A) (i : Z) :
  ¬ (- Z.of_nat (length l) ≤ i < Z.of_nat (length l))%Z →
  list_getitem l i = Raise IndexError.
Proof.
  intros Hi. unfold list_getitem.
  destruct (Z.ltb_spec i 0) as [Hneg|Hpos].
  - assert ((i + Z.of_nat (length l) <? 0)%Z = true) as -> by lia. done.
  - assert ((i <? 0)%Z = false) as -> by lia.
    assert ((Z.of_nat (length l) <=? i)%Z = true) as -> by lia. done.
Qed.

(** C10. With [n] Records stored and [-n <= i < 0], [collection[i]] is the
    Record at position [n + i] and nothing is raised or changed; the
    indices that raise [IndexError] are exactly those outside [-n, n). *)
Theorem getitem_negative_index (self : ReferenceCollection) (i : Z) :
  let n := Z.of_nat (length (_data self)) in
  ((- n ≤ i < 0)%Z →
   ∃ r, _data self !! Z.to_nat (n + i) = Some r ∧
        __getitem__ i self = (Ok r, self)) ∧
  ((__getitem__ i self).1 = Raise IndexError ↔ ¬ (- n ≤ i < n)%Z).
Proof.
  intros n. unfold __getitem__. simpl. split.
  - intros Hi.
    destruct (list_getitem_in_range (_data self) (n + i)) as (r & Hr & _ & Hg);
      [lia|].
    exists r. split; [done|]. f_equal. rewrite <-Hg. f_equal. lia.
  - split.
    + intros Hraise Hi.
      destruct (Z.ltb_spec i 0).
      * destruct (list_getitem_in_range (_data self) (n + i)) as (r & _ & _ & Hg);
          [lia|].
        replace (n + i - Z.of_nat (length (_data self)))%Z with i in Hg by lia.
        congruence.
      * destruct (list_getitem_in_range (_data self) i) as (r & _ & Hg & _);
          [lia|]. congruence.
    + apply list_getitem_out_of_range.
Qed.

Lemma getitem_negative_index_witness :
  ∃ r, _data sample_collection !! 2%nat = Some r ∧
       __getitem__ (-1) sample_collection = (Ok r, sample_collection).
Proof.
  apply (getitem_negative_index sample_collection (-1)). simpl. lia.
Defined.

(** ** sort_by *)

(** C7. With a [field] that is neither ["name"] nor ["stipend"],
    [sort_by] raises nothing and leaves the stored sequence as it was. *)
Theorem sort_by_other_field_noop (field : pyobj) (self : ReferenceCollection) :
  field ≠ OValue (VStr "name") → field ≠ OValue (VStr "stipend") →
  sort_by field self = (Ok tt, self).
Proof.
  intros Hn Hs. unfold sort_by, eq_str.
  destruct field as [[| |s|]|r|c]; try done.
  destruct (String.eqb_spec s "name") as [->|_]; [done|].
  destruct (String.eqb_spec s "stipend") as [->|_]; [done|]. done.
Qed.

Lemma sort_by_other_field_noop_witness :
  sort_by (OValue (VStr "date")) sample_collection = (Ok tt, sample_collection).
Proof.
  apply (sort_by_other_field_noop (OValue (VStr "date")) sample_collection);
    discriminate.
Defined.

Lemma name_keys_sorted self :
  Forall (fun r => str_key (full_name r)) (_data self) →
  ∃ c, sort_by (OValue (VStr "name")) self = (Ok tt, c) ∧
       _data c ≡ₚ _data self ∧
       nondecreasing full_name (_data c) ∧
       (∀ k, str_key k → tied full_name k (_data c) = tied full_name k (_data self)) ∧
       sort_by (OValue (VStr "name")) c = (Ok tt, c).
Proof.
  intros Hk.
  destruct (list_sort_ordered full_name str_key str_keys_ordered _ Hk)
    as (l' & Hsort & Hperm & Hnd & Hst & Hagain).
  exists (mkCollection l'). unfold sort_by. simpl.
  by rewrite Hsort, Hagain.
Qed.

Lemma stipend_keys_sorted self :
  Forall (fun r => float_key (stipend r)) (_data self) →
  ∃ c, sort_by (OValue (VStr "stipend")) self = (Ok tt, c) ∧
       _data c ≡ₚ _data self ∧
       nondecreasing stipend (_data c) ∧
       (∀ k, float_key k → tied stipend k (_data c) = tied stipend k (_data self)) ∧
       sort_by (OValue (VStr "stipend")) c = (Ok tt, c).
Proof.
  intros Hk.
  destruct (list_sort_ordered stipend float_key float_keys_ordered _ Hk)
    as (l' & Hsort & Hperm & Hnd & Hst & Hagain).
  exists (mkCollection l'). unfold sort_by. simpl.
  by rewrite Hsort, Hagain.
Qed.

(** C6, as the code has it.  When every [full_name] is a string,
    [sort_by("name")] raises nothing and leaves a permutation of the
    stored sequence in which [full_name] is non-decreasing and Records
    with equal names keep their order; sorting that again changes
    nothing.  When every [stipend] is a float other than NaN, the same
    holds of [sort_by("stipend")] and [stipend].  Neither sort asks
    anything of the other field. *)
Theorem sort_by_sorts_stably (self : ReferenceCollection) :
  (Forall (fun r => str_key (full_name r)) (_data self) →
   ∃ c, sort_by (OValue (VStr "name")) self = (Ok tt, c) ∧
        _data c ≡ₚ _data self ∧
        nondecreasing full_name (_data c) ∧
        (∀ k, str_key k →
              tied full_name k (_data c) = tied full_name k (_data self)) ∧
        sort_by (OValue (VStr "name")) c = (Ok tt, c)) ∧
  (Forall (fun r => float_key (stipend r)) (_data self) →
   ∃ c, sort_by (OValue (VStr "stipend")) self = (Ok tt, c) ∧
        _data c ≡ₚ _data self ∧
        nondecreasing stipend (_data c) ∧
        (∀ k, float_key k →
              tied stipend k (_data c) = tied stipend k (_data self)) ∧
        sort_by (OValue (VStr "stipend")) c = (Ok tt, c)).
Proof. split; [apply name_keys_sorted|apply stipend_keys_sorted]. Qed.

Ltac each_record tac :=
  repeat first [apply Forall_nil_2 | apply Forall_cons_2]; tac.

(** By name the Collection with a NaN stipend sorts as any other. *)
Lemma sort_by_sorts_stably_witness :
  (∃ c, sort_by (OValue (VStr "name")) nan_collection = (Ok tt, c) ∧
        _data c ≡ₚ _data nan_collection ∧
        nondecreasing full_name (_data c) ∧
        (∀ k, str_key k →
              tied full_name k (_data c)
              = tied full_name k (_data nan_collection)) ∧
        sort_by (OValue (VStr "name")) c = (Ok tt, c)) ∧
  (∃ c, sort_by (OValue (VStr "stipend")) sample_collection = (Ok tt, c) ∧
        _data c ≡ₚ _data sample_collection ∧
        nondecreasing stipend (_data c) ∧
        (∀ k, float_key k →
              tied stipend k (_data c)
              = tied stipend k (_data sample_collection)) ∧
        sort_by (OValue (VStr "stipend")) c = (Ok tt, c)).
Proof.
  split.
  - apply (proj1 (sort_by_sorts_stably nan_collection)).
    each_record ltac:(by eexists).
  - apply (proj2 (sort_by_sorts_stably sample_collection)).
    each_record ltac:(eexists; split; [reflexivity|discriminate]).
Defined.

(** The sample sorts as Python sorts it: by name it is Иванов, Петров,
    Сидоров. *)
Example sort_sample_by_name :
  (fun r => full_name r) <$> _data (sort_by (OValue (VStr "name")) sample_collection).2
  = [VStr "Иванов"; VStr "Петров"; VStr "Сидоров"].
Proof. reflexivity. Qed.

(** C6 as the specification states it fails where a stipend is NaN, which
    [float("nan")] reads from a file and [validate] accepts.  No [<]
    involving NaN holds, so [sort_by("stipend")] leaves [2.0, nan, 1.0] in
    place: the stipends are not non-decreasing, and [1.0] stays behind
    [2.0]. *)
Lemma sort_by_stipend_with_nan_not_sorted :
  @from_csv sample_text "data.csv" {["data.csv" := nan_table]}
    = Ok (Some nan_collection) ∧
  Forall data_record (_data nan_collection) ∧
  sort_by (OValue (VStr "stipend")) nan_collection = (Ok tt, nan_collection) ∧
  ¬ nondecreasing stipend (_data nan_collection) ∧
  (stipend <$> _data nan_collection !! 0%nat) = Some (VFloat f2) ∧
  (stipend <$> _data nan_collection !! 2%nat) = Some (VFloat f1) ∧
  py_lt (VFloat f1) (VFloat f2) = Ok true.
Proof.
  split; [reflexivity|].
  split; [|split; [reflexivity|split; [|by repeat split]]].
  - each_record ltac:(repeat split; eexists; split; (reflexivity || discriminate)).
  - intros Hs. apply StronglySorted_cons in Hs as [Hall _].
    apply Forall_cons in Hall as [Hle _]. vm_compute in Hle. discriminate.
Qed.

(** ** filter_by_stipend *)

Lemma filter_items_floats x items :
  Forall has_float_stipend items →
  filter_items (VFloat x) items
  = mkGenerated (filter (fun r => stipend_above x r = true) items) None.
Proof.
  induction 1 as [|item items [f Hf] Hitems IH]; simpl; [done|].
  assert (stipend_above x item = float_gt f x) as Ha.
  { unfold stipend_above. by rewrite Hf. }
  rewrite IH, filter_cons, Hf. simpl. rewrite SFltb_float_gt.
  destruct (decide (stipend_above x item = true)) as [Hd|Hd];
    rewrite Ha in Hd; by destruct (float_gt f x).
Qed.

(** [>] as the program evaluates it is [value_gt], raising [TypeError]
    where that is not defined. *)
Lemma py_gt_value_gt a b :
  py_gt a b = match value_gt a b with
              | Some r => Ok r
              | None => Raise TypeError
              end.
Proof.
  unfold py_gt, py_lt, value_gt.
  destruct a as [|[]|s1|x], b as [|[]|s2|y]; simpl;
    rewrite ?SFltb_float_gt; try done.
  unfold String.ltb. rewrite (String.compare_antisym s1 s2).
  by destruct (String.compare s2 s1).
Qed.

Lemma filter_items_comparable threshold items :
  Forall (stipend_comparable threshold) items →
  filter_items threshold items
  = mkGenerated (filter (stipend_over threshold) items) None.
Proof.
  induction 1 as [|item items [b Hb] Hitems IH]; simpl; [done|].
  rewrite py_gt_value_gt, Hb, IH, filter_cons. simpl.
  destruct (decide (stipend_over threshold item)) as [Hd|Hd];
    unfold stipend_over in Hd; rewrite Hb in Hd.
  - by injection Hd as ->.
  - destruct b; [by destruct Hd|done].
Qed.

Lemma filter_items_not_comparable threshold items :
  Exists (fun r => ¬ stipend_comparable threshold r) items →
  raised (filter_items threshold items) = Some TypeError.
Proof.
  induction 1 as [item items Hitem|item items Hitems IH]; simpl;
    rewrite py_gt_value_gt.
  - destruct (value_gt (stipend item) threshold) as [b|] eqn:Hb; [|done].
    destruct Hitem. by exists b.
  - by destruct (value_gt (stipend item) threshold).
Qed.

(** C5, as the code has it.  [filter_by_stipend(x)] never changes the
    Collection.  Where [stipend > x] is defined for every stored Record
    (both numbers, or both texts), the generator runs to its end without
    raising and yields exactly the Records with [stipend > x], in the
    order they are stored.  Where it is not defined for some stored
    Record, the generator raises [TypeError]. *)
Theorem filter_by_stipend_yields_above (self : ReferenceCollection)
    (threshold : value) :
  (filter_by_stipend threshold self).2 = self ∧
  (Forall (stipend_comparable threshold) (_data self) →
   ∃ ys, filter_by_stipend threshold self = (mkGenerated ys None, self) ∧
         ys = filter (stipend_over threshold) (_data self) ∧
         sublist ys (_data self) ∧
         ∀ r, r ∈ ys ↔ r ∈ _data self ∧ stipend_over threshold r) ∧
  (Exists (fun r => ¬ stipend_comparable threshold r) (_data self) →
   raised (filter_by_stipend threshold self).1 = Some TypeError).
Proof.
  split; [done|]. split.
  - intros Hc. eexists. unfold filter_by_stipend.
    rewrite filter_items_comparable by done.
    split; [done|]. split; [done|]. split; [apply sublist_filter|].
    intros r. rewrite list_elem_of_filter. naive_solver.
  - apply filter_items_not_comparable.
Qed.

Lemma filter_by_stipend_yields_above_witness :
  ∃ ys, filter_by_stipend (VFloat f1000) sample_collection
          = (mkGenerated ys None, sample_collection) ∧
        ys = filter (stipend_over (VFloat f1000)) (_data sample_collection) ∧
        sublist ys (_data sample_collection) ∧
        ∀ r, r ∈ ys ↔
             r ∈ _data sample_collection ∧ stipend_over (VFloat f1000) r.
Proof.
  apply (filter_by_stipend_yields_above sample_collection (VFloat f1000)).
  each_record ltac:(by eexists).
Defined.

(** C5 as the specification states it fails where a stored stipend is not
    a number.  [validate] accepts a Record whose stipend is a text, and
    [add] stores it, as it stores a Record that has no stipend at all;
    with a number for [x] the comparison then raises [TypeError], and the
    generator has yielded nothing, the Record with the stipend 1500
    included. *)
Lemma filter_by_stipend_text_stipend_raises :
  validate text_stipend_record = Ok tt ∧
  (add (ORecord (sample_record "2" "Иванов" f1500))
     (add (ORecord text_stipend_record) new_collection).2).2
  = text_stipend_collection ∧
  filter_by_stipend (VFloat f1000) text_stipend_collection
  = (mkGenerated [] (Some TypeError), text_stipend_collection) ∧
  filter_by_stipend (VFloat f1000)
    (add (ORecord (__init__ ∅)) new_collection).2
  = (mkGenerated [] (Some TypeError), mkCollection [__init__ ∅]).
Proof. by repeat split. Qed.

(** The scenario of the specification: of the stipends 900, 1500 and 2000
    the threshold 1000 lets 1500 and 2000 through, in that order. *)
Example filter_sample_above_1000 :
  stipend <$> yielded (filter_by_stipend (VFloat f1000) sample_collection).1
  = [VFloat f1500; VFloat f2000].
Proof. reflexivity. Qed.

(** ** from_csv and save_to_csv *)

Section csv_facts.
Context `{FloatText}.

Lemma init_kwargs i d n s t :
  __init__ (<["destination" := t]> (<["stipend" := s]> (<["full_name" := n]>
           (<["date" := d]> (<["id" := i]> ∅)))))
  = mkStudentReference (VBool true) i d n s t ∅.
Proof. reflexivity. Qed.

(** A row either adds one Record that has passed [validate], or raises
    and adds nothing. *)
Lemma load_row_cases row c :
  (∃ ref, validate ref = Ok tt ∧
          load_row row c = (Ok tt, mkCollection (_data c ++ [ref]))) ∨
  (∃ e, load_row row c = (Raise e, c)).
Proof.
  unfold load_row.
  destruct (dict_getitem row "№") as [i|]; simpl; [|by right; eexists].
  destruct (dict_getitem row "дата") as [d|]; simpl; [|by right; eexists].
  destruct (dict_getitem row "ФИО студента") as [n|]; simpl; [|by right; eexists].
  destruct (dict_getitem row "размер стипендии") as [c0|]; simpl;
    [|by right; eexists].
  destruct (py_float c0) as [s|]; simpl; [|by right; eexists].
  destruct (dict_getitem row "куда выдается справка") as [t|]; simpl;
    [|by right; eexists].
  rewrite init_kwargs.
  destruct (validate _) as [[]|] eqn:Hv; simpl; [|by right; eexists].
  left. eexists. split; [exact Hv|done].
Qed.

(** What [from_csv] returns is never a partial load: a Collection comes
    back only with one validated Record for each row read. *)
Lemma load_rows_all_or_nothing rows : ∀ c c',
  Forall valid (_data c) →
  load_rows rows c = Ok (Some c') →
  Forall valid (_data c') ∧
  length (_data c') = (length (_data c) + length rows)%nat.
Proof.
  induction rows as [|row rows IH]; intros c c' Hc Hload.
  - inversion Hload; subst. split; [done|simpl; lia].
  - cbn [load_rows] in Hload.
    destruct (load_row_cases row c) as [(ref & Hv & Hrow)|[e Hrow]];
      rewrite Hrow in Hload.
    + apply IH in Hload as [Hvalid Hlen].
      * split; [done|]. rewrite Hlen. simpl. rewrite length_app. simpl. lia.
      * simpl. apply Forall_app. split; [done|]. by constructor.
    + by destruct e.
Qed.

Lemma from_csv_all_or_nothing filename fs c :
  from_csv filename fs = Ok (Some c) →
  ∃ t, fs !! filename = Some t ∧
       Forall valid (_data c) ∧
       length (_data c) = length (DictReader t).
Proof.
  unfold from_csv, open_read. destruct (fs !! filename) as [t|]; [|done].
  intros Hload. exists t. split; [done|].
  by apply load_rows_all_or_nothing in Hload as [? ?]; [|constructor].
Qed.

(** A missing file is reported by returning [None]. *)
Lemma from_csv_missing_file filename fs :
  fs !! filename = None → from_csv filename fs = Ok None.
Proof. unfold from_csv, open_read. by intros ->. Qed.

(** A row that raises [KeyError] or [ValueError] ends the load with
    [None], whatever was read before it. *)
Lemma load_rows_abort row rows c e :
  load_row row c = (Raise e, c) → e = KeyError ∨ e = ValueError →
  load_rows (row :: rows) c = Ok None.
Proof. cbn [load_rows]. intros -> [-> | ->]; done. Qed.

(** A cell [float] cannot read raises [ValueError]. *)
Lemma py_float_not_a_number s :
  float_of_str s = None → py_float (Some s) = Raise ValueError.
Proof. simpl. by intros ->. Qed.

(** C3, where the code departs from it.  A data row that stops before the
    stipend column leaves [None] under that name; [float(None)] raises
    [TypeError], which neither [except] clause of [from_csv] catches, so
    the exception reaches the caller instead of a returned [None]. *)
Theorem from_csv_short_row_raises_TypeError :
  from_csv "data.csv" {["data.csv" := short_row_table]} = Raise TypeError.
Proof. reflexivity. Qed.

(** The Collections the program builds hold valid Records only. *)
Lemma program_built_valid c : program_built c → Forall valid (_data c).
Proof.
  induction 1 as [|filename fs c Hload|c item Hc IH Hitem|c field Hc IH].
  - constructor.
  - by apply from_csv_all_or_nothing in Hload as (t & _ & Hvalid & _).
  - destruct item as [v|r|c0]; simpl; try done.
    apply Forall_app. split; [done|]. constructor; [|done]. by apply Hitem.
  - unfold sort_by.
    destruct (eq_str field "name").
    + pose proof (list_sort_perm full_name (_data c)) as Hp.
      destruct (list_sort full_name (_data c)) as [r l]. simpl in *.
      by rewrite Hp.
    + destruct (eq_str field "stipend"); [|done].
      pose proof (list_sort_perm stipend (_data c)) as Hp.
      destruct (list_sort stipend (_data c)) as [r l]. simpl in *.
      by rewrite Hp.
Qed.

(** C1, as the code has it.  [add] raises [TypeError] for what is not a
    Record and appends every Record without validating it; the elements
    are all valid Records in the Collections the program builds, where
    [validate] has passed on each Record before [add] is called. *)
Theorem built_collection_holds_valid_records (c : ReferenceCollection) :
  program_built c →
  Forall valid (_data c) ∧
  (∀ item, is_StudentReference item = false →
           add item c = (Raise TypeError, c)) ∧
  (∀ r, add (ORecord r) c = (Ok tt, mkCollection (_data c ++ [r]))).
Proof.
  intros Hc. split; [by apply program_built_valid|]. split; [|done].
  by intros [v|r|c0] Hitem.
Qed.
End csv_facts.

(** C1 as the specification states it fails: [add] takes a Record that
    has no field set, on which [validate] raises, and the Collection then
    holds it. *)
Lemma add_accepts_invalid_record :
  validate (__init__ ∅) = Raise ValueError ∧
  add (ORecord (__init__ ∅)) new_collection
    = (Ok tt, mkCollection [__init__ ∅]) ∧
  ¬ Forall valid (_data (add (ORecord (__init__ ∅)) new_collection).2).
Proof.
  split; [reflexivity|]. split; [reflexivity|].
  intros Hall. apply Forall_cons in Hall as [Hv _]. discriminate Hv.
Qed.

Lemma built_collection_holds_valid_records_witness :
  let c := (add (ORecord (sample_record "4" "Орлов" f1500))
              (sort_by (OValue (VStr "name")) new_collection).2).2 in
  Forall valid (_data c) ∧
  (∀ item, is_StudentReference item = false →
           add item c = (Raise TypeError, c)) ∧
  (∀ r, add (ORecord r) c = (Ok tt, mkCollection (_data c ++ [r]))).
Proof.
  apply (@built_collection_holds_valid_records sample_text).
  apply built_add; [apply built_sort_by, built_new|].
  intros r [= <-]. reflexivity.
Defined.

(** ** Text read back from a file *)

Lemma string_pair_ind (P : string → Prop) :
  P "" → (∀ a, P (String a "")) →
  (∀ a b s, P s → P (String b s) → P (String a (String b s))) →
  ∀ s, P s.
Proof.
  intros H0 H1 H2 s. cut (P s ∧ ∀ a, P (String a s)); [by intros [? _]|].
  induction s as [|b s [IH1 IH2]]; [by split|]. split; [apply IH2|].
  intros a. by apply H2.
Qed.

(** Universal newlines leave no carriage return, and change nothing in a
    text that has none. *)
Lemma universal_newlines_has_CR s : has_CR (universal_newlines s) = false.
Proof.
  induction s as [|a|a b s IH1 IH2] using string_pair_ind; [done|..].
  - simpl. destruct (Ascii.eqb a CR) eqn:Ha; simpl; [done|]. by rewrite Ha.
  - change (universal_newlines (String a (String b s)))
      with (if Ascii.eqb a CR
            then String LF (if Ascii.eqb b LF then universal_newlines s
                            else universal_newlines (String b s))
            else String a (universal_newlines (String b s))).
    destruct (Ascii.eqb a CR) eqn:Ha.
    + destruct (Ascii.eqb b LF); cbn [has_CR]; by rewrite ?IH1, ?IH2.
    + cbn [has_CR]. by rewrite Ha, IH2.
Qed.

Lemma universal_newlines_no_CR s : has_CR s = false → universal_newlines s = s.
Proof.
  induction s as [|a s IH]; [done|]. cbn [has_CR universal_newlines].
  destruct (Ascii.eqb a CR); [done|]. simpl. intros Hs. by rewrite IH.
Qed.

Lemma universal_newlines_nonempty s : s ≠ "" → universal_newlines s ≠ "".
Proof.
  destruct s as [|a s]; [done|]. intros _. cbn [universal_newlines].
  by destruct (Ascii.eqb a CR).
Qed.

Lemma text_read_back_no_CR v : no_CR v → text_read_back v = v.
Proof.
  destruct v as [| |s|]; try done. intros Hs. simpl.
  by rewrite universal_newlines_no_CR by by apply Hs.
Qed.

Lemma reloaded_without_CR r : text_without_CR r → same_fields (reloaded r) r.
Proof.
  intros (Hi & Hd & Hn & Ht). unfold same_fields, reloaded. simpl.
  by rewrite !text_read_back_no_CR.
Qed.

Lemma header_readable : Forall readable_cell (read_back header).
Proof. repeat constructor; by vm_compute. Qed.

Section csv_roundtrip.
Context `{FloatText} `{Directories}.

(** The cells [save_to_csv] writes for a Record, in the order of the
    header. *)
Lemma written_row_cells r :
  writerow header (to_dict r)
  = [write_cell (id r); write_cell (date r); write_cell (full_name r);
     write_cell (stipend r); write_cell (destination r)].
Proof. reflexivity. Qed.

(** The row written for a Record, read back under the header. *)
Lemma written_row_read r :
  DictReader_row header (read_back (writerow header (to_dict r)))
  = <["куда выдается справка" := Some (universal_newlines (write_cell (destination r)))]>
    (<["размер стипендии" := Some (universal_newlines (write_cell (stipend r)))]>
    (<["ФИО студента" := Some (universal_newlines (write_cell (full_name r)))]>
    (<["дата" := Some (universal_newlines (write_cell (date r)))]>
    (<["№" := Some (universal_newlines (write_cell (id r)))]> ∅)))).
Proof. reflexivity. Qed.

Lemma nonempty_str_truthy s : s ≠ "" → truthy (VStr s) = true.
Proof. intros Hs. simpl. by destruct (String.eqb_spec s ""). Qed.

Lemma load_written_row r c :
  data_record r → stipend_text_roundtrip r →
  load_row (DictReader_row header (read_back (writerow header (to_dict r)))) c
  = (Ok tt, mkCollection (_data c ++ [reloaded r])).
Proof.
  intros ((i & Hi & Hi') & (d & Hd & Hd') & (n & Hn & Hn') &
          (f & Hs & Hf) & (t & Ht & Ht')) Hround.
  rewrite written_row_read. unfold reloaded, load_row, dict_getitem.
  rewrite Hi, Hd, Hn, Hs, Ht.
  repeat (rewrite ?lookup_insert_eq, ?lookup_insert_ne by done; simpl).
  rewrite (Hround f Hs). simpl. rewrite init_kwargs.
  unfold validate. cbn [forallb id date full_name stipend destination].
  rewrite !nonempty_str_truthy, Hf by by apply universal_newlines_nonempty.
  done.
Qed.

Lemma load_written_rows rs : ∀ c,
  Forall data_record rs → Forall stipend_text_roundtrip rs →
  load_rows (DictReader_row header ∘ (read_back ∘ writerow header ∘ to_dict) <$> rs) c
  = Ok (Some (mkCollection (_data c ++ (reloaded <$> rs)))).
Proof.
  induction rs as [|r rs IH]; intros c Hrs Hround.
  - simpl. rewrite app_nil_r. by destruct c.
  - apply Forall_cons in Hrs as [Hr Hrs].
    apply Forall_cons in Hround as [Hround_r Hround].
    rewrite fmap_cons. cbn [load_rows]. unfold compose at 1 2 3.
    rewrite load_written_row by done.
    rewrite IH by done. simpl. by rewrite <-app_assoc.
Qed.

Lemma written_rows_not_blank (rs : list StudentReference) :
  filter (fun row => row ≠ []) (read_back ∘ writerow header ∘ to_dict <$> rs)
  = (read_back ∘ writerow header ∘ to_dict <$> rs).
Proof.
  induction rs as [|r rs IH]; [done|].
  rewrite fmap_cons, filter_cons, IH.
  destruct (decide _) as [_|Hblank]; [done|].
  destruct Hblank. unfold compose. by rewrite written_row_cells.
Qed.

(** A written row is one [csv.reader] yields when its cells are within
    the limit, and only then. *)
Lemma written_row_readable r :
  Forall readable_cell (read_back (writerow header (to_dict r)))
  ↔ within_field_limit r.
Proof.
  rewrite written_row_cells. unfold read_back, within_field_limit, readable_cell.
  cbn [fmap list_fmap]. rewrite !Forall_cons.
  pose proof universal_newlines_has_CR. naive_solver.
Qed.

Lemma written_table_readable rs :
  readable (read_back header :: (read_back ∘ writerow header ∘ to_dict <$> rs))
  ↔ Forall within_field_limit rs.
Proof.
  unfold readable. rewrite Forall_cons, Forall_fmap.
  pose proof header_readable as Hh. split.
  - intros [_ Hrs]. eapply Forall_impl; [exact Hrs|].
    intros r Hr. by apply written_row_readable.
  - intros Hrs. split; [done|]. eapply Forall_impl; [exact Hrs|].
    intros r Hr. by apply written_row_readable.
Qed.

(** What [from_csv] finds after a [save_to_csv] that could open the file
    for a Collection that is not empty. *)
Lemma save_then_load filename self fs :
  _data self ≠ [] → open_for_writing filename = Ok tt →
  Forall data_record (_data self) →
  Forall stipend_text_roundtrip (_data self) →
  from_csv filename (save_to_csv filename self fs)
  = Ok (Some (mkCollection (reloaded <$> _data self))).
Proof.
  intros Hne Hopen Hrs Hround. unfold save_to_csv, from_csv, open_read.
  rewrite Hopen. destruct (_data self) as [|r rs] eqn:Hdata; [done|].
  rewrite lookup_insert_eq. unfold DictReader.
  rewrite written_rows_not_blank, <-list_fmap_compose.
  by rewrite load_written_rows.
Qed.

Lemma save_to_csv_lookup filename self fs :
  _data self ≠ [] → open_for_writing filename = Ok tt →
  save_to_csv filename self fs !! filename
  = Some (read_back header
          :: (read_back ∘ writerow header ∘ to_dict <$> _data self)).
Proof.
  intros Hne Hopen. unfold save_to_csv. rewrite Hopen.
  destruct (_data self); [done|]. by rewrite lookup_insert_eq.
Qed.

Lemma save_to_csv_nothing_written filename self fs :
  _data self = [] ∨ (∃ e, open_for_writing filename = Raise e) →
  save_to_csv filename self fs = fs.
Proof.
  unfold save_to_csv. intros [->|[e ->]]; [done|]. by destruct (_data self).
Qed.

Lemma reloaded_fields rs :
  Forall2 (fun r r' => same_fields (reloaded r) r') rs (reloaded <$> rs).
Proof. induction rs; simpl; constructor; [by repeat split|done]. Qed.

Lemma reloaded_same_fields rs :
  Forall text_without_CR rs → Forall2 same_fields rs (reloaded <$> rs).
Proof.
  induction 1 as [|r rs Hr Hrs IH]; simpl; constructor; [|done].
  apply reloaded_without_CR in Hr. unfold same_fields in *. naive_solver.
Qed.

(** C4, as the code has it.  [save_to_csv] leaves the files as they were
    when the Collection is empty and when the file cannot be opened for
    writing: [from_csv] of the path then returns what it returned before,
    [None] if the path did not exist.  Otherwise, for Records of the data
    model whose stipends [float] reads back from their [repr] and whose
    cells are within the field size limit of the csv module, the
    file written is one [csv.reader] reads, and [from_csv] of the same
    path returns a Collection of as many Records, field for field the
    same up to the newlines: what is read back of a text field has [\n]
    for each [\r\n] and for each other [\r].  Text fields without a
    carriage return come back as they were. *)
Theorem save_then_load_same_records (filename : string)
    (self : ReferenceCollection) (fs : filesystem) :
  (_data self = [] ∨ (∃ e, open_for_writing filename = Raise e) →
   save_to_csv filename self fs = fs ∧
   from_csv filename (save_to_csv filename self fs) = from_csv filename fs ∧
   (fs !! filename = None →
    from_csv filename (save_to_csv filename self fs) = Ok None)) ∧
  (_data self ≠ [] → open_for_writing filename = Ok tt →
   Forall data_record (_data self) →
   Forall stipend_text_roundtrip (_data self) →
   Forall within_field_limit (_data self) →
   ∃ t c, save_to_csv filename self fs !! filename = Some t ∧ readable t ∧
          from_csv filename (save_to_csv filename self fs) = Ok (Some c) ∧
          length (_data c) = length (_data self) ∧
          Forall2 (fun r r' => same_fields (reloaded r) r')
            (_data self) (_data c) ∧
          (Forall text_without_CR (_data self) →
           Forall2 same_fields (_data self) (_data c))).
Proof.
  split.
  - intros Hnothing. rewrite save_to_csv_nothing_written by done.
    split; [done|]. split; [done|]. apply from_csv_missing_file.
  - intros Hne Hopen Hrs Hround Hlim.
    eexists _, (mkCollection (reloaded <$> _data self)).
    split; [by apply save_to_csv_lookup|].
    split; [by apply written_table_readable|].
    split; [by apply save_then_load|].
    split; [simpl; by rewrite length_fmap|].
    split; [apply reloaded_fields|apply reloaded_same_fields].
Qed.
End csv_roundtrip.

Lemma save_then_load_same_records_witness :
  ∃ t c, @save_to_csv sample_text no_directories "data.csv" sample_collection ∅
           !! "data.csv" = Some t ∧
         readable t ∧
         @from_csv sample_text "data.csv"
           (@save_to_csv sample_text no_directories "data.csv" sample_collection ∅)
         = Ok (Some c) ∧
         length (_data c) = length (_data sample_collection) ∧
         Forall2 (fun r r' => same_fields (reloaded r) r')
           (_data sample_collection) (_data c) ∧
         (Forall text_without_CR (_data sample_collection) →
          Forall2 same_fields (_data sample_collection) (_data c)).
Proof.
  apply (@save_then_load_same_records sample_text no_directories
           "data.csv" sample_collection ∅).
  - discriminate.
  - reflexivity.
  - each_record ltac:(repeat split; eexists; split; (reflexivity || discriminate)).
  - each_record ltac:(intros f [= <-]; reflexivity).
  - each_record ltac:(each_record ltac:(by vm_compute)).
Defined.

(** C4 as the specification states it fails for the empty Collection:
    [save_to_csv] writes nothing for it, and [from_csv] of a path that
    does not exist returns no Collection. *)
Lemma save_then_load_empty_collection :
  @save_to_csv sample_text no_directories "data.csv" new_collection ∅ = ∅ ∧
  @from_csv sample_text "data.csv"
    (@save_to_csv sample_text no_directories "data.csv" new_collection ∅)
  = Ok None.
Proof. split; reflexivity. Qed.

(** It fails as well where the file cannot be opened for writing: the
    exception is caught, nothing is written, and the load finds no
    file. *)
Example save_then_load_unwritable_path :
  @save_to_csv sample_text no_directories "no/such/dir/data.csv"
    sample_collection ∅ = ∅ ∧
  @from_csv sample_text "no/such/dir/data.csv"
    (@save_to_csv sample_text no_directories "no/such/dir/data.csv"
       sample_collection ∅)
  = Ok None.
Proof. split; reflexivity. Qed.

(** Nor is a Record that passes [validate] always one of the data model:
    with a text that is no number for its stipend it is written as any
    other, and the load returns no Collection. *)
Example save_then_load_text_stipend :
  Forall valid (_data text_stipend_collection) ∧
  @from_csv sample_text "data.csv"
    (@save_to_csv sample_text no_directories "data.csv"
       text_stipend_collection ∅)
  = Ok None.
Proof. split; [by repeat constructor|reflexivity]. Qed.

(** And a carriage return in a text field comes back as a line feed: the
    name [A\rB] is loaded as [A\nB]. *)
Example save_then_load_carriage_return :
  full_name <$> _data CR_collection = [VStr ("A" +:+ String CR "B")] ∧
  @from_csv sample_text "data.csv"
    (@save_to_csv sample_text no_directories "data.csv" CR_collection ∅)
  = Ok (Some (mkCollection [sample_record "1" ("A" +:+ String LF "B") f900])).
Proof. split; reflexivity. Qed.

(** The scenario of the specification: three well-formed rows load as
    three Records, and the sample Collection is what its own file holds. *)
Example load_sample_table :
  @from_csv sample_text "data.csv" {["data.csv" := sample_table]}
  = Ok (Some sample_collection).
Proof. reflexivity. Qed.

Example save_sample_collection :
  @save_to_csv sample_text no_directories "data.csv" sample_collection ∅
  = {["data.csv" := sample_table]}.
Proof. reflexivity. Qed.

(** The scenario of the specification: one stipend that is not a number
    and nothing is loaded, the two good rows included. *)
Example load_with_bad_stipend :
  @from_csv sample_text "data.csv"
    {["data.csv" := [header;
                     ["1"; "01.09.2024"; "Петров"; "900.0"; "деканат"];
                     ["2"; "01.09.2024"; "Иванов"; "много"; "деканат"];
                     ["3"; "01.09.2024"; "Сидоров"; "2000.0"; "деканат"]]]}
  = Ok None.
Proof. reflexivity. Qed.

(** * More of the program *)

(** ** StudentReference: construction and assignment *)

Ltac field_cases H :=
  unfold _fields in H; rewrite !elem_of_cons, elem_of_nil in H;
  destruct H as [->|[->|[->|[->|[->|[]]]]]].

Ltac is_field :=
  unfold _fields; rewrite !elem_of_cons; by repeat ((by left) || right).

Lemma init_same_fields (kwargs1 kwargs2 : gmap string value) :
  (∀ name, name ∈ _fields → kwargs1 !! name = kwargs2 !! name) →
  __init__ kwargs1 = __init__ kwargs2.
Proof.
  intros Hsame. rewrite !init_fields.
  assert (∀ name, name ∈ _fields →
            default VNone (kwargs1 !! name) = default VNone (kwargs2 !! name))
    as Hd by (intros name Hn; by rewrite (Hsame name Hn)).
  rewrite (Hd "id"), (Hd "date"), (Hd "full_name"), (Hd "stipend"),
    (Hd "destination"); [done|is_field..].
Qed.

(** X1. A call of the constructor with a keyword [self] raises
    [TypeError].  Every other call returns a Record, and reads its
    keywords under the five field names and nowhere else: two calls whose
    keywords agree on those names build the same Record, so any other
    keyword is dropped without notice. *)
Theorem init_reads_only_the_fields (keywords1 keywords2 : gmap string value) :
  (is_Some (keywords1 !! "self") →
   call_StudentReference keywords1 = Raise TypeError) ∧
  (keywords1 !! "self" = None → keywords2 !! "self" = None →
   (∀ name, name ∈ _fields → keywords1 !! name = keywords2 !! name) →
   ∃ r, call_StudentReference keywords1 = Ok r ∧
        call_StudentReference keywords2 = Ok r).
Proof.
  unfold call_StudentReference. split.
  - by intros [v ->].
  - intros -> -> Hsame. exists (__init__ keywords1).
    by rewrite (init_same_fields keywords1 keywords2).
Qed.

Lemma init_reads_only_the_fields_witness :
  call_StudentReference (<["self" := VStr "A"]> (<["id" := VStr "1"]> ∅))
  = Raise TypeError ∧
  ∃ r, call_StudentReference (<["grade" := VStr "A"]> (<["id" := VStr "1"]> ∅))
       = Ok r ∧
       call_StudentReference (<["id" := VStr "1"]> ∅) = Ok r.
Proof.
  split.
  - apply (init_reads_only_the_fields
             (<["self" := VStr "A"]> (<["id" := VStr "1"]> ∅)) ∅).
    by eexists.
  - apply (init_reads_only_the_fields
             (<["grade" := VStr "A"]> (<["id" := VStr "1"]> ∅))
             (<["id" := VStr "1"]> ∅)); [done..|].
    intros name Hname. rewrite lookup_insert_ne; [done|].
    intros Heq. subst name. unfold _fields in Hname.
    rewrite !elem_of_cons, elem_of_nil in Hname. intuition discriminate.
Defined.

(** X2. Assigning one of the five fields always goes through, whatever
    the value: reading the field gives the value back, and every other
    attribute of the Record reads as before. *)
Theorem setattr_field_stores (name : string) (v : value)
    (self : StudentReference) :
  name ∈ _fields →
  ∃ self', __setattr__ name v self = Ok self' ∧
           getattr name self' = Ok v ∧
           ∀ other, other ≠ name → getattr other self' = getattr other self.
Proof.
  intros Hname. exists (object_setattr name v self).
  unfold __setattr__. rewrite bool_decide_eq_true_2 by done. simpl.
  split; [done|]. destruct self as [ini i d n s t o].
  field_cases Hname; (split; [reflexivity|]); intros other Hother;
    unfold getattr; simpl;
    repeat match goal with
    | |- context [String.eqb other ?c] =>
      destruct (String.eqb_spec other c); [by subst|]
    end; done.
Qed.

Lemma setattr_field_stores_witness :
  ∃ self', __setattr__ "stipend" (VFloat f2000) (sample_record "1" "Петров" f900)
             = Ok self' ∧
           getattr "stipend" self' = Ok (VFloat f2000) ∧
           ∀ other, other ≠ "stipend" →
             getattr other self' = getattr other (sample_record "1" "Петров" f900).
Proof.
  apply (setattr_field_stores "stipend" (VFloat f2000)
           (sample_record "1" "Петров" f900)).
  is_field.
Defined.

(** X3. The attribute guard does not protect validity: after a field of
    a Record that passes [validate] is assigned a value, the Record still
    passes exactly when that value is truthy; assigning [None], [""] or
    [0.0] is accepted and leaves a Record on which [validate] raises. *)
Theorem setattr_field_valid_iff_truthy (name : string) (v : value)
    (self : StudentReference) :
  name ∈ _fields → validate self = Ok tt →
  ∃ self', __setattr__ name v self = Ok self' ∧
           (validate self' = Ok tt ↔ truthy v = true) ∧
           (truthy v = false → validate self' = Raise ValueError).
Proof.
  intros Hname Hvalid. exists (object_setattr name v self).
  unfold __setattr__. rewrite bool_decide_eq_true_2 by done. simpl.
  split; [done|]. destruct self as [ini i d n s t o].
  apply validate_ok_iff in Hvalid. simpl in Hvalid.
  rewrite !Forall_cons in Hvalid.
  destruct Hvalid as (Hi & Hd & Hn & Hs & Ht & _).
  field_cases Hname; unfold validate; simpl;
    rewrite ?Hi, ?Hd, ?Hn, ?Hs, ?Ht; simpl; rewrite ?andb_true_r;
    destruct (truthy v); simpl; (split; [split|]); done.
Qed.

Lemma setattr_field_valid_iff_truthy_witness :
  ∃ self', __setattr__ "destination" (VStr "") (sample_record "1" "Петров" f900)
             = Ok self' ∧
           (validate self' = Ok tt ↔ truthy (VStr "") = true) ∧
           (truthy (VStr "") = false → validate self' = Raise ValueError).
Proof.
  apply (setattr_field_valid_iff_truthy "destination" (VStr "")
           (sample_record "1" "Петров" f900)).
  - is_field.
  - reflexivity.
Defined.

Lemma to_dict_lookups r :
  to_dict r !! "№" = Some (id r) ∧
  to_dict r !! "дата" = Some (date r) ∧
  to_dict r !! "ФИО студента" = Some (full_name r) ∧
  to_dict r !! "размер стипендии" = Some (stipend r) ∧
  to_dict r !! "куда выдается справка" = Some (destination r).
Proof. repeat split; reflexivity. Qed.

(** X4. [to_dict] has a key for each name of the CSV header and no other,
    and two Records give the same dictionary exactly when their five
    fields are equal. *)
Theorem to_dict_keys_and_fields (r1 r2 : StudentReference) :
  (∀ key, is_Some (to_dict r1 !! key) ↔ key ∈ header) ∧
  (to_dict r1 = to_dict r2 ↔ same_fields r1 r2).
Proof.
  split.
  - intros key. unfold to_dict, header.
    rewrite !lookup_insert_is_Some, lookup_empty, is_Some_alt.
    rewrite !elem_of_cons, elem_of_nil. intuition congruence.
  - split.
    + intros Heq.
      destruct (to_dict_lookups r1) as (H1 & H2 & H3 & H4 & H5).
      destruct (to_dict_lookups r2) as (G1 & G2 & G3 & G4 & G5).
      rewrite Heq in H1, H2, H3, H4, H5. unfold same_fields.
      repeat split; congruence.
    + intros (H1 & H2 & H3 & H4 & H5). unfold to_dict.
      by rewrite H1, H2, H3, H4, H5.
Qed.


(** ** ReferenceCollection: add, indexing and iteration *)

(** X5. [add] of a Record puts it at the end: the Collection is one
    longer, [collection[-1]] is the Record just added, and every index
    that was in range before still returns the Record it returned. *)
Theorem add_then_getitem (r : StudentReference) (self : ReferenceCollection) :
  ∃ self', add (ORecord r) self = (Ok tt, self') ∧
           length (_data self') = S (length (_data self)) ∧
           __getitem__ (-1) self' = (Ok r, self') ∧
           ∀ i r', (0 ≤ i)%Z → (__getitem__ i self).1 = Ok r' →
                   (__getitem__ i self').1 = Ok r'.
Proof.
  eexists. split; [reflexivity|]. simpl.
  split; [rewrite length_app; simpl; lia|]. split.
  - unfold __getitem__. simpl. f_equal.
    destruct (list_getitem_in_range (_data self ++ [r])
                (Z.of_nat (length (_data self)))) as (x & Hx & _ & Hg).
    { rewrite length_app. simpl. lia. }
    rewrite Nat2Z.id, lookup_app_r, Nat.sub_diag in Hx by lia.
    simpl in Hx. injection Hx as <-.
    rewrite <-Hg. f_equal. rewrite length_app. simpl. lia.
  - intros i r' Hi Hget.
    destruct (decide (i < Z.of_nat (length (_data self)))%Z) as [Hlt|Hge].
    + destruct (list_getitem_in_range (_data self) i) as (x & Hx & Hg & _);
        [lia|].
      destruct (list_getitem_in_range (_data self ++ [r]) i)
        as (x' & Hx' & Hg' & _).
      { rewrite length_app. simpl. lia. }
      rewrite lookup_app_l in Hx' by lia. simpl in *. congruence.
    + rewrite list_getitem_out_of_range in Hget by lia. done.
Qed.

Lemma next_until_stop_from (c : ReferenceCollection) (fuel i : nat) :
  (i ≤ length (_data c))%nat → (length (_data c) - i < fuel)%nat →
  next_until_stop fuel (mkIterated c (Some i))
  = (drop i (_data c), Some StopIteration,
     mkIterated c (Some (length (_data c)))).
Proof.
  revert i. induction fuel as [|fuel IH]; intros i Hi Hfuel; [lia|].
  simpl. unfold __next__. simpl.
  destruct (decide (i < length (_data c))%nat) as [Hlt|Hge].
  - rewrite bool_decide_eq_true_2 by done.
    destruct (lookup_lt_is_Some_2 (_data c) i Hlt) as [r Hr]. rewrite Hr.
    replace (i + 1)%nat with (S i) by lia.
    rewrite IH by lia. by rewrite (drop_S _ _ _ Hr).
  - rewrite bool_decide_eq_false_2 by done.
    assert (i = length (_data c)) as -> by lia.
    by rewrite drop_all.
Qed.

(** X6. A [for] loop over a Collection visits the stored Records, each
    once and in stored order, and ends by [StopIteration]; this is so
    wherever an earlier iteration left the cursor, since [__iter__] puts
    it back to the start. *)
Theorem for_loop_visits_all (self : iterated) (fuel : nat) :
  (length (_data (it_self self)) < fuel)%nat →
  for_loop fuel self
  = (_data (it_self self), Some StopIteration,
     mkIterated (it_self self) (Some (length (_data (it_self self))))).
Proof.
  intros Hfuel. unfold for_loop, __iter__.
  rewrite next_until_stop_from by lia. done.
Qed.

Lemma for_loop_visits_all_witness :
  for_loop 4 (mkIterated sample_collection (Some 2%nat))
  = (_data sample_collection, Some StopIteration,
     mkIterated sample_collection (Some 3%nat)).
Proof.
  apply (for_loop_visits_all (mkIterated sample_collection (Some 2%nat)) 4).
  simpl. lia.
Defined.

(** X7. The Collection is its own iterator, so two loops over it share
    one cursor: when the body of a loop, at its first Record, runs a
    second loop over the same Collection to the end, the outer loop gets
    [StopIteration] at its next step and has seen the first Record only. *)
Theorem nested_loop_ends_outer_loop (c : ReferenceCollection)
    (r : StudentReference) (rest : list StudentReference) (fuel : nat) :
  _data c = r :: rest → (length (_data c) < fuel)%nat →
  ∃ outer inner,
    __next__ (__iter__ (not_iterated c)) = (Yield r, outer) ∧
    for_loop fuel outer = (_data c, Some StopIteration, inner) ∧
    __next__ inner = (StopIteration, inner).
Proof.
  intros Hdata Hfuel. eexists _, _. split; [|split].
  - unfold __next__, __iter__, not_iterated. simpl. rewrite Hdata. simpl.
    reflexivity.
  - unfold for_loop, __iter__. simpl.
    rewrite next_until_stop_from by lia. done.
  - unfold __next__. simpl.
    rewrite bool_decide_eq_false_2 by lia. done.
Qed.

Lemma nested_loop_ends_outer_loop_witness :
  ∃ outer inner,
    __next__ (__iter__ (not_iterated sample_collection))
      = (Yield (sample_record "1" "Петров" f900), outer) ∧
    for_loop 4 outer = (_data sample_collection, Some StopIteration, inner) ∧
    __next__ inner = (StopIteration, inner).
Proof.
  apply (nested_loop_ends_outer_loop sample_collection
           (sample_record "1" "Петров" f900)
           [sample_record "2" "Иванов" f1500; sample_record "3" "Сидоров" f2000]
           4).
  - reflexivity.
  - simpl. lia.
Defined.

(** X8. An iteration that has ended starts again when the Collection
    grows: after [StopIteration], once a Record is added, [__next__]
    returns that Record instead of raising [StopIteration] again. *)
Theorem exhausted_iteration_resumes_after_add (self : iterated)
    (r : StudentReference) (fuel : nat) :
  (length (_data (it_self self)) < fuel)%nat →
  ∃ ended grown,
    for_loop fuel self = (_data (it_self self), Some StopIteration, ended) ∧
    __next__ ended = (StopIteration, ended) ∧
    it_add (ORecord r) ended = (Ok tt, grown) ∧
    (__next__ grown).1 = Yield r.
Proof.
  intros Hfuel. eexists _, _. split.
  { unfold for_loop, __iter__. rewrite next_until_stop_from by lia. done. }
  split; [|split; [reflexivity|]].
  - unfold __next__. simpl. rewrite bool_decide_eq_false_2 by lia. done.
  - unfold __next__. simpl.
    rewrite bool_decide_eq_true_2 by (rewrite length_app; simpl; lia).
    rewrite lookup_app_r, Nat.sub_diag by lia. done.
Qed.

Lemma exhausted_iteration_resumes_after_add_witness :
  ∃ ended grown,
    for_loop 4 (not_iterated sample_collection)
      = (_data sample_collection, Some StopIteration, ended) ∧
    __next__ ended = (StopIteration, ended) ∧
    it_add (ORecord (sample_record "4" "Орлов" f1500)) ended = (Ok tt, grown) ∧
    (__next__ grown).1 = Yield (sample_record "4" "Орлов" f1500).
Proof.
  apply (exhausted_iteration_resumes_after_add
           (not_iterated sample_collection)
           (sample_record "4" "Орлов" f1500) 4).
  simpl. lia.
Defined.


(** ** from_csv: what is loaded *)

Section sort_comparable_keys.
Context {A : Type} (key : A → value) (D : value → Prop).
Hypothesis HD : ∀ a b, D a → D b → ∃ r, py_lt a b = Ok r.

Lemma insert_back_comparable x before :
  D (key x) → Forall (fun a => D (key a)) before →
  ∃ l, insert_back key x before = Ok l.
Proof.
  intros Hx Hb. induction Hb as [|y before Hy Hb [l IH]]; simpl; [by eexists|].
  destruct (HD (key x) (key y) Hx Hy) as [[] ->]; simpl; [|by eexists].
  rewrite IH. simpl. by eexists.
Qed.

(** Where every two keys compare, the sort raises nothing. *)
Lemma sort_loop_comparable todo : ∀ before,
  Forall (fun a => D (key a)) (before ++ todo) →
  (sort_loop key before todo).1 = Ok tt.
Proof.
  induction todo as [|x todo IH]; intros before Hk; simpl; [done|].
  rewrite Forall_app in Hk. destruct Hk as [Hb Ht].
  apply Forall_cons in Ht as [Hx Ht].
  destruct (insert_back_comparable x before Hx Hb) as [l Hl]. rewrite Hl.
  apply IH. rewrite Forall_app. split; [|done].
  rewrite (insert_back_perm key _ _ _ Hl). by constructor.
Qed.
End sort_comparable_keys.

Section loaded.
Context `{FloatText}.

Lemma load_row_ok_record row c c' :
  load_row row c = (Ok tt, c') →
  ∃ ref, record_of_row row = Some ref ∧ validate ref = Ok tt ∧
         c' = mkCollection (_data c ++ [ref]).
Proof.
  unfold load_row, record_of_row, dict_getitem.
  destruct (row !! "№") as [i|]; simpl; [|done].
  destruct (row !! "дата") as [d|]; simpl; [|done].
  destruct (row !! "ФИО студента") as [n|]; simpl; [|done].
  destruct (row !! "размер стипендии") as [[s|]|]; simpl; [|done..].
  destruct (float_of_str s) as [f|]; simpl; [|done].
  destruct (row !! "куда выдается справка") as [t|]; simpl; [|done].
  rewrite init_kwargs.
  destruct (validate _) as [[]|] eqn:Hv; simpl; [|done].
  intros [= <-]. eexists. by repeat split.
Qed.

Lemma load_rows_records rows : ∀ c c',
  load_rows rows c = Ok (Some c') →
  ∃ rs, _data c' = _data c ++ rs ∧
        Forall2 (fun row r => record_of_row row = Some r ∧ validate r = Ok tt)
          rows rs.
Proof.
  induction rows as [|row rows IH]; intros c c' Hload.
  - inversion Hload; subst. exists []. by rewrite app_nil_r.
  - cbn [load_rows] in Hload.
    destruct (load_row row c) as [[[]|e] c1] eqn:Hrow.
    + apply load_row_ok_record in Hrow as (ref & Hrec & Hv & ->).
      apply IH in Hload as (rs & Hdata & Hrs). simpl in Hdata.
      exists (ref :: rs). rewrite Hdata, <-app_assoc. split; [done|].
      by constructor.
    + by destruct e.
Qed.

Lemma truthy_cell cell :
  truthy (cell_value cell) = true → nonempty_str (cell_value cell).
Proof.
  destruct cell as [s|]; simpl; [|done]. intros Hs. exists s. split; [done|].
  intros ->. done.
Qed.

Lemma record_of_row_data_model row r :
  record_of_row row = Some r → validate r = Ok tt →
  data_record r ∧ constructed r.
Proof.
  unfold record_of_row.
  destruct (row !! "№") as [i|]; simpl; [|done].
  destruct (row !! "дата") as [d|]; simpl; [|done].
  destruct (row !! "ФИО студента") as [n|]; simpl; [|done].
  destruct (row !! "размер стипендии") as [[s|]|]; simpl; [|done..].
  destruct (float_of_str s) as [f|]; simpl; [|done].
  destruct (row !! "куда выдается справка") as [t|]; simpl; [|done].
  intros [= <-] Hv. apply validate_ok_iff in Hv. simpl in Hv.
  rewrite !Forall_cons in Hv. destruct Hv as (Hi & Hd & Hn & Hs & Ht & _).
  split; [|done]. unfold data_record. simpl.
  repeat split; try (by apply truthy_cell). by exists f.
Qed.

(** X9. What [from_csv] returns follows the file row by row: the Records
    come in the order of the non-blank data rows, one for each, and each
    holds the cells its row has under the five header names, the stipend
    cell as [float] reads it, and passes [validate]. *)
Theorem from_csv_records_follow_rows (filename : string) (fs : filesystem)
    (c : ReferenceCollection) :
  from_csv filename fs = Ok (Some c) →
  ∃ t, fs !! filename = Some t ∧
       Forall2 (fun row r => record_of_row row = Some r ∧ validate r = Ok tt)
         (DictReader t) (_data c).
Proof.
  unfold from_csv, open_read. destruct (fs !! filename) as [t|]; [|done].
  intros Hload. exists t. split; [done|].
  by apply load_rows_records in Hload as (rs & -> & Hrs).
Qed.

Lemma loaded_data_model filename fs c :
  from_csv filename fs = Ok (Some c) →
  Forall (fun r => data_record r ∧ constructed r) (_data c).
Proof.
  unfold from_csv, open_read. destruct (fs !! filename) as [t|]; [|done].
  intros Hload. apply load_rows_records in Hload as (rs & -> & Hrs).
  simpl. induction Hrs as [|row r rows rs [Hrec Hv] Hrs IH]; constructor.
  - by apply (record_of_row_data_model row).
  - done.
Qed.

(** X10. Every Record [from_csv] returns is a Record of the data model:
    [id], [date], [full_name] and [destination] are non-empty strings,
    [stipend] is a float other than zero, the Record is initialised and
    carries no other attribute. *)
Theorem from_csv_loads_data_model_records (filename : string)
    (fs : filesystem) (c : ReferenceCollection) :
  from_csv filename fs = Ok (Some c) →
  Forall (fun r => data_record r ∧ constructed r) (_data c).
Proof. apply loaded_data_model. Qed.

Lemma py_lt_strings a b : str_key a → str_key b → ∃ r, py_lt a b = Ok r.
Proof. intros [s1 ->] [s2 ->]. by eexists. Qed.

Lemma py_lt_floats a b :
  (∃ f, a = VFloat f) → (∃ f, b = VFloat f) → ∃ r, py_lt a b = Ok r.
Proof. intros [f1 ->] [f2 ->]. by eexists. Qed.

Lemma data_records_never_raise (c : ReferenceCollection) :
  Forall data_record (_data c) →
  (∀ field, (sort_by field c).1 = Ok tt) ∧
  (∀ x, raised (filter_by_stipend (VFloat x) c).1 = None).
Proof.
  intros Hc. split.
  - intros field. unfold sort_by.
    destruct (eq_str field "name").
    + pose proof (sort_loop_comparable full_name str_key py_lt_strings
                    (_data c) []) as Hs.
      unfold list_sort. destruct (sort_loop full_name [] (_data c)) as [r l].
      simpl in *. apply Hs. eapply Forall_impl; [exact Hc|].
      intros r0 (_ & _ & (s & Hs0 & _) & _). by exists s.
    + destruct (eq_str field "stipend"); [|done].
      pose proof (sort_loop_comparable stipend (fun v => ∃ f, v = VFloat f)
                    py_lt_floats (_data c) []) as Hs.
      unfold list_sort. destruct (sort_loop stipend [] (_data c)) as [r l].
      simpl in *. apply Hs. eapply Forall_impl; [exact Hc|].
      intros r0 (_ & _ & _ & (f & Hf & _) & _). by exists f.
  - intros x. unfold filter_by_stipend. simpl.
    rewrite filter_items_floats; [done|].
    eapply Forall_impl; [exact Hc|].
    intros r0 (_ & _ & _ & (f & Hf & _) & _). by exists f.
Qed.

(** X11. On a Collection that [from_csv] has returned, neither sorting
    nor filtering raises: [sort_by] returns normally for every [field],
    a NaN among the stipends included, and [filter_by_stipend] runs to
    its end for every float threshold. *)
Theorem loaded_collection_sorts_and_filters (filename : string)
    (fs : filesystem) (c : ReferenceCollection) :
  from_csv filename fs = Ok (Some c) →
  (∀ field, (sort_by field c).1 = Ok tt) ∧
  (∀ x, raised (filter_by_stipend (VFloat x) c).1 = None).
Proof.
  intros Hload. apply data_records_never_raise.
  eapply Forall_impl; [by apply (loaded_data_model filename fs)|].
  by intros r [Hr _].
Qed.

(** X12. A file without a non-blank data row loads as the empty
    Collection, not as [None], whatever its header line says: an empty
    file and a file with a wrong header but no data are both accepted. *)
Theorem from_csv_without_data_rows (filename : string) (fs : filesystem)
    (t : table) :
  fs !! filename = Some t → Forall (fun row => row = []) (tail t) →
  from_csv filename fs = Ok (Some new_collection).
Proof.
  intros Hfile Hblank. unfold from_csv, open_read. rewrite Hfile.
  destruct t as [|fieldnames rows]; [done|]. simpl in *.
  assert (filter (fun row : list string => row ≠ []) rows = []) as ->; [|done].
  clear Hfile. induction Hblank as [|row rows -> Hblank IH]; [done|].
  rewrite filter_cons. by destruct (decide _).
Qed.

Lemma foldl_insert_cells_notin (name : string) (l : list (string * string)) :
  ∀ d : gmap string (option string),
  name ∉ l.*1 →
  foldl (fun d kv => <[kv.1 := Some kv.2]> d) d l !! name = d !! name.
Proof.
  induction l as [|[k v] l IH]; intros d Hname; [done|]. simpl in *.
  rewrite not_elem_of_cons in Hname. destruct Hname as [Hk Hl].
  rewrite IH by done. by rewrite lookup_insert_ne.
Qed.

Lemma foldl_insert_none_notin (name : string) (l : list string) :
  ∀ d : gmap string (option string),
  name ∉ l → foldl (fun d k => <[k := None]> d) d l !! name = d !! name.
Proof.
  induction l as [|k l IH]; intros d Hname; [done|]. simpl.
  rewrite not_elem_of_cons in Hname. destruct Hname as [Hk Hl].
  rewrite IH by done. by rewrite lookup_insert_ne.
Qed.

Lemma DictReader_row_notin name fieldnames row :
  name ∉ fieldnames → DictReader_row fieldnames row !! name = None.
Proof.
  intros Hname. unfold DictReader_row.
  rewrite foldl_insert_none_notin, foldl_insert_cells_notin; [done| |].
  - intros Hin. apply Hname. apply list_elem_of_fmap in Hin as [[k v] [-> Hkv]].
    by apply elem_of_zip_l in Hkv.
  - intros Hin. apply Hname. by apply (subseteq_drop (length row)).
Qed.

Lemma record_of_row_has_header row r name :
  record_of_row row = Some r → name ∈ header → is_Some (row !! name).
Proof.
  unfold record_of_row. intros Hrec Hname.
  destruct (row !! "№") as [i|] eqn:H1; simpl in Hrec; [|done].
  destruct (row !! "дата") as [d|] eqn:H2; simpl in Hrec; [|done].
  destruct (row !! "ФИО студента") as [n|] eqn:H3; simpl in Hrec; [|done].
  destruct (row !! "размер стипендии") as [c|] eqn:H4; simpl in Hrec; [|done].
  destruct c as [s|]; simpl in Hrec; [|done].
  destruct (float_of_str s) as [f|]; simpl in Hrec; [|done].
  destruct (row !! "куда выдается справка") as [t|] eqn:H5; simpl in Hrec;
    [|done].
  unfold header in Hname. rewrite !elem_of_cons, elem_of_nil in Hname.
  destruct Hname as [->|[->|[->|[->|[->|[]]]]]]; by eexists.
Qed.

(** X13. When the header line lacks one of the five column names and the
    file has a non-blank data row, [from_csv] returns no Collection: it
    returns [None] or lets an exception through, never a load without
    the column. *)
Theorem from_csv_missing_column (filename : string) (fs : filesystem)
    (fieldnames : list string) (rows : table) (name : string)
    (row : list string) :
  fs !! filename = Some (fieldnames :: rows) →
  name ∈ header → name ∉ fieldnames →
  row ∈ rows → row ≠ [] →
  from_csv filename fs = Ok None ∨ ∃ e, from_csv filename fs = Raise e.
Proof.
  intros Hfile Hname Hmissing Hrow Hnonblank.
  destruct (from_csv filename fs) as [[c|]|e] eqn:Hload;
    [exfalso|by left|by right; exists e].
  unfold from_csv, open_read in Hload. rewrite Hfile in Hload.
  apply load_rows_records in Hload as (rs & _ & Hrs). simpl in Hrs.
  assert (DictReader_row fieldnames row
          ∈ DictReader_row fieldnames <$> filter (fun row => row ≠ []) rows)
    as Hin.
  { apply list_elem_of_fmap. exists row. split; [done|].
    by apply list_elem_of_filter. }
  apply list_elem_of_lookup in Hin as [k Hk].
  destruct (Forall2_lookup_l _ _ _ _ _ Hrs Hk) as (r & _ & Hrec & _).
  destruct (record_of_row_has_header _ r name Hrec Hname) as [cell Hcell].
  by rewrite DictReader_row_notin in Hcell.
Qed.
End loaded.

Lemma from_csv_records_follow_rows_witness :
  ∃ t, ({["data.csv" := sample_table]} : filesystem) !! "data.csv" = Some t ∧
       Forall2 (fun row r => @record_of_row sample_text row = Some r ∧
                             validate r = Ok tt)
         (DictReader t) (_data sample_collection).
Proof.
  apply (@from_csv_records_follow_rows sample_text "data.csv"
           {["data.csv" := sample_table]} sample_collection).
  reflexivity.
Defined.

Lemma from_csv_loads_data_model_records_witness :
  Forall (fun r => data_record r ∧ constructed r) (_data sample_collection).
Proof.
  apply (@from_csv_loads_data_model_records sample_text "data.csv"
           {["data.csv" := sample_table]} sample_collection).
  reflexivity.
Defined.

Lemma loaded_collection_sorts_and_filters_witness :
  (∀ field, (sort_by field nan_collection).1 = Ok tt) ∧
  (∀ x, raised (filter_by_stipend (VFloat x) nan_collection).1 = None).
Proof.
  apply (@loaded_collection_sorts_and_filters sample_text "data.csv"
           {["data.csv" := nan_table]} nan_collection).
  reflexivity.
Defined.

Lemma from_csv_without_data_rows_witness :
  @from_csv sample_text "data.csv" {["data.csv" := [["имя"; "сумма"]; []]]}
  = Ok (Some new_collection).
Proof.
  apply (@from_csv_without_data_rows sample_text "data.csv"
           {["data.csv" := [["имя"; "сумма"]; []]]} [["имя"; "сумма"]; []]).
  - reflexivity.
  - by repeat constructor.
Defined.


Lemma from_csv_missing_column_witness :
  @from_csv sample_text "data.csv"
    {["data.csv" := [["№"; "ФИО студента"; "размер стипендии";
                      "куда выдается справка"];
                     ["1"; "Петров"; "900.0"; "деканат"]]]}
  = Ok None ∨
  ∃ e, @from_csv sample_text "data.csv"
         {["data.csv" := [["№"; "ФИО студента"; "размер стипендии";
                           "куда выдается справка"];
                          ["1"; "Петров"; "900.0"; "деканат"]]]}
       = Raise e.
Proof.
  apply (@from_csv_missing_column sample_text "data.csv" _
           ["№"; "ФИО студента"; "размер стипендии"; "куда выдается справка"]
           [["1"; "Петров"; "900.0"; "деканат"]] "дата"
           ["1"; "Петров"; "900.0"; "деканат"]).
  - reflexivity.
  - unfold header. rewrite !elem_of_cons. by right; left.
  - rewrite !elem_of_cons, elem_of_nil. intuition discriminate.
  - by left.
  - discriminate.
Defined.

(** ** from_csv: the order of the columns *)

Lemma foldl_insert_cells_in (l : list (string * string)) :
  ∀ (d : gmap string (option string)) k v,
  NoDup l.*1 → (k, v) ∈ l →
  foldl (fun d kv => <[kv.1 := Some kv.2]> d) d l !! k = Some (Some v).
Proof.
  induction l as [|[k0 v0] l IH]; intros d k v Hnodup Hin.
  - by apply elem_of_nil in Hin.
  - simpl in *. apply NoDup_cons in Hnodup as [Hk0 Hnodup].
    apply elem_of_cons in Hin as [[= -> ->]|Hin].
    + rewrite foldl_insert_cells_notin by done. by rewrite lookup_insert_eq.
    + by apply IH.
Qed.

Lemma foldl_insert_cells_perm (l1 l2 : list (string * string))
    (d : gmap string (option string)) :
  NoDup l1.*1 → l2 ≡ₚ l1 →
  foldl (fun d kv => <[kv.1 := Some kv.2]> d) d l2
  = foldl (fun d kv => <[kv.1 := Some kv.2]> d) d l1.
Proof.
  intros Hnodup Hperm. apply map_eq. intros k.
  assert (NoDup l2.*1) as Hnodup2 by (by rewrite Hperm).
  destruct (decide (k ∈ l1.*1)) as [Hin|Hout].
  - apply list_elem_of_fmap in Hin as [[k' v] [-> Hkv]]. simpl.
    rewrite (foldl_insert_cells_in l1 d k' v) by done.
    apply foldl_insert_cells_in; [done|by rewrite Hperm].
  - rewrite (foldl_insert_cells_notin k l1) by done.
    apply foldl_insert_cells_notin. by rewrite Hperm.
Qed.

(** A full row read under distinct names gives one dictionary, in
    whatever order the columns stand. *)
Lemma DictReader_row_columns (fn1 fn2 row1 row2 : list string) :
  NoDup fn1 → length row1 = length fn1 → length row2 = length fn2 →
  zip fn2 row2 ≡ₚ zip fn1 row1 →
  DictReader_row fn2 row2 = DictReader_row fn1 row1.
Proof.
  intros Hnodup Hlen1 Hlen2 Hperm. unfold DictReader_row.
  rewrite !drop_ge by lia. simpl.
  apply foldl_insert_cells_perm; [|done].
  by rewrite fst_zip by lia.
Qed.

(** X14. [from_csv] goes by the names of the columns, not by their
    places: two files with distinct column names whose rows are all full
    and carry, row by row, the same cells under the same names load to
    the same result, whatever the order of the columns in each. *)
Theorem from_csv_column_order (filename : string) (fs1 fs2 : filesystem)
    (fn1 fn2 : list string) (rows1 rows2 : table) `{FloatText} :
  fs1 !! filename = Some (fn1 :: rows1) →
  fs2 !! filename = Some (fn2 :: rows2) →
  NoDup fn1 →
  Forall2 (fun row1 row2 =>
             length row1 = length fn1 ∧ length row2 = length fn2 ∧
             zip fn2 row2 ≡ₚ zip fn1 row1) rows1 rows2 →
  from_csv filename fs2 = from_csv filename fs1.
Proof.
  intros Hfile1 Hfile2 Hnodup Hrows. unfold from_csv, open_read.
  rewrite Hfile1, Hfile2. f_equal. unfold DictReader. clear Hfile1 Hfile2.
  induction Hrows as [|row1 row2 rows1 rows2 (Hlen1 & Hlen2 & Hperm) Hrows IH];
    [done|].
  rewrite !filter_cons.
  assert (length row1 = length row2) as Hlen.
  { apply Permutation_length in Hperm. rewrite !length_zip_with in Hperm. lia. }
  destruct (decide (row1 ≠ [])) as [Hne1|He1];
    destruct (decide (row2 ≠ [])) as [Hne2|He2].
  - rewrite !fmap_cons, IH. f_equal. by apply DictReader_row_columns.
  - destruct row1; [done|]. destruct row2; [|by destruct He2]. done.
  - destruct row2; [done|]. destruct row1; [|by destruct He1]. done.
  - done.
Qed.

Ltac same_elements_step :=
  match goal with
  | |- ?l ≡ₚ ?x :: ?k =>
    let rec go pre post :=
      match post with
      | x :: ?post' =>
        apply (Permutation_trans (l' := x :: pre ++ post'));
          [symmetry; apply (Permutation_middle pre post' x)
          |apply Permutation_skip; simpl]
      | ?y :: ?post' =>
        let pre' := eval simpl in (pre ++ [y]) in go pre' post'
      end in
    go (@nil (string * string)) l
  end.

Lemma from_csv_column_order_witness :
  @from_csv sample_text "data.csv"
    {["data.csv" := [["размер стипендии"; "№"; "куда выдается справка";
                      "дата"; "ФИО студента"];
                     ["900.0"; "1"; "деканат"; "01.09.2024"; "Петров"]]]}
  = @from_csv sample_text "data.csv"
      {["data.csv" := [header;
                       ["1"; "01.09.2024"; "Петров"; "900.0"; "деканат"]]]}.
Proof.
  apply (from_csv_column_order "data.csv"
           {["data.csv" := [header;
                            ["1"; "01.09.2024"; "Петров"; "900.0"; "деканат"]]]}
           {["data.csv" := [["размер стипендии"; "№"; "куда выдается справка";
                             "дата"; "ФИО студента"];
                            ["900.0"; "1"; "деканат"; "01.09.2024"; "Петров"]]]}
           header
           ["размер стипендии"; "№"; "куда выдается справка"; "дата";
            "ФИО студента"]
           [["1"; "01.09.2024"; "Петров"; "900.0"; "деканат"]]
           [["900.0"; "1"; "деканат"; "01.09.2024"; "Петров"]]).
  - reflexivity.
  - reflexivity.
  - unfold header. repeat (apply NoDup_cons; split);
      [rewrite ?elem_of_cons, ?elem_of_nil; intuition discriminate..|
       apply NoDup_nil_2].
  - constructor; [|constructor]. split; [reflexivity|]. split; [reflexivity|].
    unfold header. simpl. repeat same_elements_step. done.
Defined.


(** ** save_to_csv *)

(** X15. [save_to_csv] never touches another path, and changes nothing
    when the Collection is empty or the file cannot be opened for writing.
    Otherwise the file at the path, whatever it held, holds afterwards
    the header line followed by one row for each Record in stored order,
    with the cells of [id], [date], [full_name], [stipend] and
    [destination] in that order, each as a later read yields it; and that
    is a file [csv.reader] reads exactly when no cell is beyond the field
    size limit. *)
Theorem save_to_csv_writes_header_and_rows `{FloatText} `{Directories}
    (filename : string) (self : ReferenceCollection) (fs : filesystem) :
  (∀ other, other ≠ filename →
            save_to_csv filename self fs !! other = fs !! other) ∧
  (_data self = [] ∨ (∃ e, open_for_writing filename = Raise e) →
   save_to_csv filename self fs = fs) ∧
  (_data self ≠ [] → open_for_writing filename = Ok tt →
   ∃ t, save_to_csv filename self fs !! filename = Some t ∧
        t = header ::
            ((fun r => universal_newlines <$>
                         [write_cell (id r); write_cell (date r);
                          write_cell (full_name r); write_cell (stipend r);
                          write_cell (destination r)]) <$> _data self) ∧
        (readable t ↔ Forall within_field_limit (_data self))).
Proof.
  split; [|split].
  - intros other Hother. unfold save_to_csv.
    destruct (_data self); [done|].
    destruct (open_for_writing filename); [|done].
    by rewrite lookup_insert_ne.
  - apply save_to_csv_nothing_written.
  - intros Hne Hopen. eexists. split; [by apply save_to_csv_lookup|].
    split; [reflexivity|]. apply written_table_readable.
Qed.

Lemma save_to_csv_writes_header_and_rows_witness :
  ∃ t, @save_to_csv sample_text no_directories "data.csv" CR_collection ∅
         !! "data.csv" = Some t ∧
       t = header ::
           ((fun r => universal_newlines <$>
                        [@write_cell sample_text (id r);
                         @write_cell sample_text (date r);
                         @write_cell sample_text (full_name r);
                         @write_cell sample_text (stipend r);
                         @write_cell sample_text (destination r)])
              <$> _data CR_collection) ∧
       (readable t ↔ Forall (@within_field_limit sample_text) (_data CR_collection)).
Proof.
  apply (@save_to_csv_writes_header_and_rows sample_text no_directories
           "data.csv" CR_collection ∅); [discriminate|reflexivity].
Defined.

Lemma reloaded_constructed r :
  constructed r → text_without_CR r → reloaded r = r.
Proof.
  destruct r. intros [Hini Hattrs] (Hi & Hd & Hn & Ht). unfold reloaded.
  simpl in *. subst. by rewrite !text_read_back_no_CR.
Qed.

(** X16. What was loaded survives a save.  Take a Collection that
    [from_csv] has returned, not empty, whose text has no carriage return
    (text read from a file has none), whose cells are within the field
    size limit and whose stipends [float] reads back from their [repr].
    Saving it to a path that can be opened for writing and loading that
    path returns the very same Collection, from a file that [csv.reader]
    reads; at a path that cannot be opened nothing is written. *)
Theorem load_save_load_same_collection `{FloatText} `{Directories}
    (filename target : string) (fs fs' : filesystem)
    (c : ReferenceCollection) :
  from_csv filename fs = Ok (Some c) →
  _data c ≠ [] →
  Forall text_without_CR (_data c) →
  Forall within_field_limit (_data c) →
  Forall stipend_text_roundtrip (_data c) →
  (open_for_writing target = Ok tt →
   (∃ t, save_to_csv target c fs' !! target = Some t ∧ readable t) ∧
   from_csv target (save_to_csv target c fs') = Ok (Some c)) ∧
  ((∃ e, open_for_writing target = Raise e) →
   save_to_csv target c fs' = fs').
Proof.
  intros Hload Hne Hcr Hlim Hround.
  pose proof (loaded_data_model filename fs c Hload) as Hmodel.
  split; [|intros Hopen; apply save_to_csv_nothing_written; by right].
  intros Hopen. split.
  - eexists. split; [by apply save_to_csv_lookup|].
    by apply written_table_readable.
  - rewrite save_then_load;
      [|done..|by eapply Forall_impl; [exact Hmodel|intros ? []]|done].
    do 2 f_equal. destruct c as [data]. simpl in *. f_equal.
    clear Hload Hne Hlim Hround.
    induction Hmodel as [|r data [_ Hr] _ IH]; [done|].
    apply Forall_cons in Hcr as [Hcr_r Hcr].
    by rewrite fmap_cons, reloaded_constructed, IH.
Qed.

Lemma load_save_load_same_collection_witness :
  ((∃ t, @save_to_csv sample_text no_directories "copy.csv" sample_collection ∅
           !! "copy.csv" = Some t ∧ readable t) ∧
   @from_csv sample_text "copy.csv"
     (@save_to_csv sample_text no_directories "copy.csv" sample_collection ∅)
   = Ok (Some sample_collection)) ∧
  @save_to_csv sample_text no_directories "no/such/dir/copy.csv"
    sample_collection ∅ = ∅.
Proof.
  split.
  - apply (@load_save_load_same_collection sample_text no_directories
             "data.csv" "copy.csv" {["data.csv" := sample_table]} ∅
             sample_collection).
    + reflexivity.
    + discriminate.
    + each_record ltac:(repeat split; intros s [= <-]; reflexivity).
    + each_record ltac:(each_record ltac:(by vm_compute)).
    + each_record ltac:(intros f [= <-]; reflexivity).
    + reflexivity.
  - apply (@load_save_load_same_collection sample_text no_directories
             "data.csv" "no/such/dir/copy.csv" {["data.csv" := sample_table]} ∅
             sample_collection).
    + reflexivity.
    + discriminate.
    + each_record ltac:(repeat split; intros s [= <-]; reflexivity).
    + each_record ltac:(each_record ltac:(by vm_compute)).
    + each_record ltac:(intros f [= <-]; reflexivity).
    + by eexists.
Defined.

(** ** filter_by_stipend: thresholds, NaN and stipends that are no number *)

Lemma float_gt_le_trans f x y :
  SFleb x y = true → float_gt f y = true → float_gt f x = true.
Proof.
  destruct f as [[]|[]| |[] mf ef], x as [[]|[]| |[] mx ex],
    y as [[]|[]| |[] my ey]; float_order.
Qed.

Lemma float_gt_nan f x :
  float_gt f x = true → f ≠ S754_nan ∧ x ≠ S754_nan.
Proof. by destruct f as [[]|[]| |[] mf ef], x as [[]|[]| |[] mx ex]. Qed.

(** X17. Raising the threshold only removes Records: for float stipends
    and thresholds [x <= y], what [filter_by_stipend(y)] yields is what
    [filter_by_stipend(x)] yields with some Records left out, the order
    kept. *)
Theorem filter_by_stipend_monotone (self : ReferenceCollection)
    (x y : spec_float) :
  Forall has_float_stipend (_data self) → SFleb x y = true →
  yielded (filter_by_stipend (VFloat y) self).1
    `sublist_of` yielded (filter_by_stipend (VFloat x) self).1.
Proof.
  intros Hf Hxy. unfold filter_by_stipend. simpl.
  rewrite !filter_items_floats by done. simpl.
  rewrite (list_filter_iff (fun r => stipend_above y r = true)
             (fun r => stipend_above y r = true ∧ stipend_above x r = true)).
  - rewrite <-list_filter_filter. apply sublist_filter.
  - intros r. split; [|by intros []]. intros Hy. split; [done|].
    unfold stipend_above in *. destruct (stipend r); try done.
    by apply (float_gt_le_trans _ x y).
Qed.

Lemma filter_by_stipend_monotone_witness :
  yielded (filter_by_stipend (VFloat f1500) sample_collection).1
    `sublist_of` yielded (filter_by_stipend (VFloat f1000) sample_collection).1.
Proof.
  apply (filter_by_stipend_monotone sample_collection f1000 f1500).
  - each_record ltac:(by eexists).
  - reflexivity.
Defined.

(** X18. NaN is above nothing and nothing is above NaN: with float
    stipends, the threshold NaN yields no Record at all, and a Record
    whose stipend is NaN is yielded for no threshold. *)
Theorem filter_by_stipend_nan (self : ReferenceCollection) :
  Forall has_float_stipend (_data self) →
  yielded (filter_by_stipend (VFloat S754_nan) self).1 = [] ∧
  ∀ x r, r ∈ yielded (filter_by_stipend (VFloat x) self).1 →
         stipend r ≠ VFloat S754_nan.
Proof.
  intros Hf. unfold filter_by_stipend. simpl. split.
  - rewrite filter_items_floats by done. simpl.
    clear Hf. induction (_data self) as [|r rs IH]; [done|].
    rewrite filter_cons, IH. destruct (decide _) as [Hr|]; [|done].
    unfold stipend_above in Hr. destruct (stipend r) as [| | |f]; try done.
    by apply float_gt_nan in Hr as [_ ?].
  - intros x r. rewrite filter_items_floats by done. simpl.
    rewrite list_elem_of_filter. intros [Hr _] Hnan.
    unfold stipend_above in Hr. rewrite Hnan in Hr.
    by apply float_gt_nan in Hr as [? _].
Qed.

Lemma filter_by_stipend_nan_witness :
  yielded (filter_by_stipend (VFloat S754_nan) nan_collection).1 = [] ∧
  ∀ x r, r ∈ yielded (filter_by_stipend (VFloat x) nan_collection).1 →
         stipend r ≠ VFloat S754_nan.
Proof.
  apply (filter_by_stipend_nan nan_collection).
  each_record ltac:(by eexists).
Defined.

Lemma filter_items_app threshold pre rest :
  raised (filter_items threshold pre) = None →
  filter_items threshold (pre ++ rest)
  = mkGenerated
      (yielded (filter_items threshold pre)
       ++ yielded (filter_items threshold rest))
      (raised (filter_items threshold rest)).
Proof.
  induction pre as [|item pre IH]; simpl.
  - intros _. by destruct (filter_items threshold rest).
  - destruct (py_gt (stipend item) threshold) as [b|]; simpl; [|done].
    intros Hpre. rewrite IH by done. simpl. by destruct b.
Qed.

(** X19. The generator stops at the first stipend that is no number:
    with float stipends before it, a Record whose stipend is [None] or a
    string makes [filter_by_stipend] raise [TypeError] after it has
    yielded the Records above the threshold that stand before that
    Record, and none of those behind it. *)
Theorem filter_by_stipend_raises_at_non_number
    (before rest : list StudentReference) (bad : StudentReference)
    (x : spec_float) :
  Forall has_float_stipend before → as_number (stipend bad) = None →
  filter_by_stipend (VFloat x) (mkCollection (before ++ bad :: rest))
  = (mkGenerated (filter (fun r => stipend_above x r = true) before)
       (Some TypeError),
     mkCollection (before ++ bad :: rest)).
Proof.
  intros Hf Hbad. unfold filter_by_stipend. simpl. f_equal.
  rewrite filter_items_app by (by rewrite filter_items_floats).
  rewrite filter_items_floats by done. simpl.
  unfold py_gt, py_lt. rewrite Hbad.
  destruct (stipend bad); simpl; try done; by rewrite app_nil_r.
Qed.

Lemma filter_by_stipend_raises_at_non_number_witness :
  filter_by_stipend (VFloat f1000)
    (mkCollection (_data sample_collection ++ __init__ ∅ :: _data nan_collection))
  = (mkGenerated
       (filter (fun r => stipend_above f1000 r = true) (_data sample_collection))
       (Some TypeError),
     mkCollection (_data sample_collection ++ __init__ ∅ :: _data nan_collection)).
Proof.
  apply (filter_by_stipend_raises_at_non_number (_data sample_collection)
           (_data nan_collection) (__init__ ∅) f1000).
  - each_record ltac:(by eexists).
  - reflexivity.
Defined.


(** ** sort_by: what it keeps, short Collections, keys that do not compare *)

Lemma sort_by_data_perm (field : pyobj) (self : ReferenceCollection) :
  _data (sort_by field self).2 ≡ₚ _data self.
Proof.
  unfold sort_by. destruct (eq_str field "name").
  - pose proof (list_sort_perm full_name (_data self)) as Hp.
    by destruct (list_sort full_name (_data self)).
  - destruct (eq_str field "stipend"); [|done].
    pose proof (list_sort_perm stipend (_data self)) as Hp.
    by destruct (list_sort stipend (_data self)).
Qed.

(** X20. [sort_by] never loses or repeats a Record: whatever [field] is
    and whether the sort returns or raises, the stored sequence
    afterwards is a permutation of the one before. *)
Theorem sort_by_keeps_the_records (field : pyobj) (self : ReferenceCollection) :
  _data (sort_by field self).2 ≡ₚ _data self ∧
  length (_data (sort_by field self).2) = length (_data self).
Proof.
  split; [apply sort_by_data_perm|].
  apply Permutation_length, sort_by_data_perm.
Qed.

(** X21. With fewer than two Records nothing is compared: [sort_by]
    returns normally and leaves the Collection as it was, for every
    [field] and whatever the Record holds, [None] under the key
    included. *)
Theorem sort_by_short_collection (field : pyobj) (self : ReferenceCollection) :
  (length (_data self) ≤ 1)%nat → sort_by field self = (Ok tt, self).
Proof.
  intros Hlen. destruct self as [[|r [|r' rs]]]; simpl in Hlen; [| |lia];
    unfold sort_by; by destruct (eq_str field "name"), (eq_str field "stipend").
Qed.

Lemma sort_by_short_collection_witness :
  sort_by (OValue (VStr "name")) (mkCollection [__init__ ∅])
  = (Ok tt, mkCollection [__init__ ∅]).
Proof.
  apply (sort_by_short_collection (OValue (VStr "name"))
           (mkCollection [__init__ ∅])).
  simpl. lia.
Defined.

Lemma py_lt_raises_TypeError a b e : py_lt a b = Raise e → e = TypeError.
Proof.
  unfold py_lt.
  destruct a as [|[]|s1|f1], b as [|[]|s2|f2]; simpl; intros [= <-]; done.
Qed.

Lemma py_lt_None a b r : py_lt a b = Ok r → a ≠ VNone ∧ b ≠ VNone.
Proof. destruct a as [|[]|s1|f1], b as [|[]|s2|f2]; done. Qed.

Section sort_none_keys.
Context {A : Type} (key : A → value).

Lemma insert_back_raises_TypeError x before e :
  insert_back key x before = Raise e → e = TypeError.
Proof.
  induction before as [|y before IH]; simpl; [done|].
  destruct (py_lt (key x) (key y)) as [[]|e'] eqn:Hlt; simpl.
  - destruct (insert_back key x before); simpl; [done|].
    intros [= <-]. by apply IH.
  - done.
  - intros [= <-]. by apply (py_lt_raises_TypeError _ _ _ Hlt).
Qed.

Lemma sort_loop_raises_TypeError todo : ∀ before e,
  (sort_loop key before todo).1 = Raise e → e = TypeError.
Proof.
  induction todo as [|x todo IH]; intros before e; simpl; [done|].
  destruct (insert_back key x before) as [before'|e'] eqn:Hins; simpl.
  - apply IH.
  - intros [= <-]. by apply (insert_back_raises_TypeError _ _ _ Hins).
Qed.

Lemma insert_back_ok_keys x y before l :
  insert_back key x (y :: before) = Ok l →
  key x ≠ VNone ∧ key y ≠ VNone ∧ l ≠ [].
Proof.
  simpl. destruct (py_lt (key x) (key y)) as [b|] eqn:Hlt; simpl; [|done].
  apply py_lt_None in Hlt as [Hx Hy]. intros Hl. split; [done|]. split; [done|].
  destruct b; [|by inversion Hl].
  destruct (insert_back key x before); simpl in Hl; by inversion Hl.
Qed.

(** A sort that returns has compared every element it inserted behind
    another, and so has met no [None] key. *)
Lemma sort_loop_ok_keys todo : ∀ y before,
  (sort_loop key (y :: before) todo).1 = Ok tt →
  Forall (fun x => key x ≠ VNone) todo ∧ (todo ≠ [] → key y ≠ VNone).
Proof.
  induction todo as [|x todo IH]; intros y before; simpl; [done|].
  destruct (py_lt (key x) (key y)) as [b|] eqn:Hlt; simpl; [|done].
  pose proof (py_lt_None _ _ _ Hlt) as [Hx Hy].
  destruct b.
  - destruct (insert_back key x before) as [l|]; simpl; [|done].
    intros Hok. apply IH in Hok as [Hall _]. by repeat constructor.
  - intros Hok. apply IH in Hok as [Hall _]. by repeat constructor.
Qed.

Lemma list_sort_none_key l x :
  (2 ≤ length l)%nat → x ∈ l → key x = VNone →
  (list_sort key l).1 = Raise TypeError.
Proof.
  intros Hlen Hx Hnone. unfold list_sort.
  destruct (sort_loop key [] l).1 as [[]|e] eqn:Hsort.
  - exfalso. destruct l as [|x0 [|x1 l]]; simpl in Hlen; [lia..|].
    change (sort_loop key [] (x0 :: x1 :: l))
      with (sort_loop key [x0] (x1 :: l)) in Hsort.
    apply sort_loop_ok_keys in Hsort as [Hall Hx0].
    assert (key x0 ≠ VNone) as Hx0' by (by apply Hx0).
    apply elem_of_cons in Hx as [->|Hx]; [done|].
    rewrite Forall_forall in Hall. by apply (Hall x).
  - f_equal. by apply (sort_loop_raises_TypeError l [] e).
Qed.
End sort_none_keys.

(** X22. With two Records or more, one unset key makes the sort fail:
    [sort_by("name")] raises [TypeError] when some [full_name] is [None],
    and [sort_by("stipend")] when some [stipend] is. *)
Theorem sort_by_unset_key_raises (self : ReferenceCollection)
    (r : StudentReference) :
  (2 ≤ length (_data self))%nat → r ∈ _data self →
  (full_name r = VNone →
   (sort_by (OValue (VStr "name")) self).1 = Raise TypeError) ∧
  (stipend r = VNone →
   (sort_by (OValue (VStr "stipend")) self).1 = Raise TypeError).
Proof.
  intros Hlen Hr. split; intros Hnone; unfold sort_by; simpl.
  - pose proof (list_sort_none_key full_name _ r Hlen Hr Hnone) as Hs.
    by destruct (list_sort full_name (_data self)).
  - pose proof (list_sort_none_key stipend _ r Hlen Hr Hnone) as Hs.
    by destruct (list_sort stipend (_data self)).
Qed.

Lemma sort_by_unset_key_raises_witness :
  (full_name (__init__ ∅) = VNone →
   (sort_by (OValue (VStr "name"))
      (mkCollection (__init__ ∅ :: _data sample_collection))).1
   = Raise TypeError) ∧
  (stipend (__init__ ∅) = VNone →
   (sort_by (OValue (VStr "stipend"))
      (mkCollection (__init__ ∅ :: _data sample_collection))).1
   = Raise TypeError).
Proof.
  apply (sort_by_unset_key_raises
           (mkCollection (__init__ ∅ :: _data sample_collection)) (__init__ ∅)).
  - simpl. lia.
  - by left.
Defined.

Lemma StronglySorted_filter {A} (R : relation A) (P : A → Prop)
    `{∀ x, Decision (P x)} (l : list A) :
  StronglySorted R l → StronglySorted R (filter P l).
Proof.
  induction 1 as [|x l Hs IH Hall]; [constructor|].
  rewrite filter_cons. destruct (decide (P x)); [|done].
  constructor; [done|].
  rewrite Forall_forall in Hall. apply Forall_forall. intros y Hy.
  apply list_elem_of_filter in Hy as [_ Hy]. by apply Hall.
Qed.

(** X23. Sorting by name and then by stipend orders by stipend with the
    names as tie-break: with string names and floats other than NaN as
    stipends, the stipends end up non-decreasing and the Records of equal
    stipend stand in non-decreasing order of name. *)
Theorem sort_by_name_then_stipend (self : ReferenceCollection) :
  Forall (fun r => str_key (full_name r)) (_data self) →
  Forall (fun r => float_key (stipend r)) (_data self) →
  ∃ c1 c2,
    sort_by (OValue (VStr "name")) self = (Ok tt, c1) ∧
    sort_by (OValue (VStr "stipend")) c1 = (Ok tt, c2) ∧
    _data c2 ≡ₚ _data self ∧
    nondecreasing stipend (_data c2) ∧
    ∀ k, float_key k → nondecreasing full_name (tied stipend k (_data c2)).
Proof.
  intros Hn Hs.
  destruct (name_keys_sorted self Hn) as (c1 & Hsort1 & Hp1 & Hnd1 & _ & _).
  assert (Forall (fun r => float_key (stipend r)) (_data c1)) as Hs1
    by (by rewrite Hp1).
  destruct (stipend_keys_sorted c1 Hs1) as (c2 & Hsort2 & Hp2 & Hnd2 & Hst & _).
  exists c1, c2. split; [done|]. split; [done|].
  split; [by rewrite Hp2|]. split; [done|].
  intros k Hk. rewrite (Hst k Hk). by apply StronglySorted_filter.
Qed.

Lemma sort_by_name_then_stipend_witness :
  ∃ c1 c2,
    sort_by (OValue (VStr "name")) sample_collection = (Ok tt, c1) ∧
    sort_by (OValue (VStr "stipend")) c1 = (Ok tt, c2) ∧
    _data c2 ≡ₚ _data sample_collection ∧
    nondecreasing stipend (_data c2) ∧
    ∀ k, float_key k → nondecreasing full_name (tied stipend k (_data c2)).
Proof.
  apply (sort_by_name_then_stipend sample_collection).
  - each_record ltac:(by eexists).
  - each_record ltac:(eexists; split; [reflexivity|discriminate]).
Defined.


(** ** main *)

Lemma typed_record_data_model i d n f t :
  validate (mkStudentReference (VBool true) (VStr i) (VStr d) (VStr n)
              (VFloat f) (VStr t) ∅) = Ok tt →
  data_record (mkStudentReference (VBool true) (VStr i) (VStr d) (VStr n)
                 (VFloat f) (VStr t) ∅).
Proof.
  intros Hv. apply validate_ok_iff in Hv. simpl in Hv.
  rewrite !Forall_cons in Hv. destruct Hv as (Hi & Hd & Hn & Hs & Ht & _).
  unfold data_record. simpl.
  repeat split; try (by apply (truthy_cell (Some _))). by exists f.
Qed.

Section main_facts.
Context `{FloatText} `{Directories}.
Context (fs0 : filesystem) (lines0 : list string).

Lemma input_ok w line w' :
  world_ok fs0 lines0 w → input w = Some (line, w') →
  world_ok fs0 lines0 w' ∧ (length (stdin w') < length (stdin w))%nat ∧
  line ∈ lines0 ∧ collection w' = collection w ∧ files w' = files w.
Proof.
  intros (Hc & Hf & Hs). unfold input.
  destruct (stdin w) as [|l rest] eqn:Hin; [done|]. intros [= <- <-]. simpl.
  split; [|split; [lia|split; [|done]]].
  - split; [done|]. split; [done|]. by apply (suffix_cons_l _ _ l).
  - apply (elem_of_suffix (l :: rest)); [by left|done].
Qed.

Lemma input_none w : input w = None → stdin w = [].
Proof. unfold input. by destruct (stdin w). Qed.

Lemma set_collection_ok w c :
  world_ok fs0 lines0 w →
  (∀ c', c = Some c' →
         Forall (fun r => data_record r ∧ constructed r) (_data c')) →
  world_ok fs0 lines0 (set_collection c w).
Proof. intros (_ & Hf & Hs) Hc. by split. Qed.

Lemma add_choice_ok w :
  world_ok fs0 lines0 w →
  world_ok fs0 lines0 (add_choice w) ∧
  (length (stdin (add_choice w)) ≤ length (stdin w))%nat.
Proof.
  intros Hw. unfold add_choice.
  destruct (input w) as [[i w1]|] eqn:H1; [|by split].
  destruct (input_ok _ _ _ Hw H1) as (Hw1 & Hl1 & _).
  destruct (input w1) as [[d w2]|] eqn:H2; [|split; [done|lia]].
  destruct (input_ok _ _ _ Hw1 H2) as (Hw2 & Hl2 & _).
  destruct (input w2) as [[n w3]|] eqn:H3; [|split; [done|lia]].
  destruct (input_ok _ _ _ Hw2 H3) as (Hw3 & Hl3 & _).
  destruct (input w3) as [[s w4]|] eqn:H4; [|split; [done|lia]].
  destruct (input_ok _ _ _ Hw3 H4) as (Hw4 & Hl4 & _).
  destruct (float_of_str s) as [f|]; [|split; [done|lia]].
  destruct (input w4) as [[t w5]|] eqn:H5; [|split; [done|lia]].
  destruct (input_ok _ _ _ Hw4 H5) as (Hw5 & Hl5 & _).
  rewrite init_kwargs.
  destruct (validate _) as [[]|] eqn:Hv; [|split; [done|lia]].
  destruct (collection w5) as [c|] eqn:Hc; [|split; [done|lia]].
  split; [|simpl; lia]. apply set_collection_ok; [done|].
  intros c' [= <-]. simpl. apply Forall_app. split.
  - destruct Hw5 as (Hc5 & _). by apply Hc5.
  - constructor; [|done]. split; [|done]. by apply typed_record_data_model.
Qed.

Lemma sort_choice_ok field w :
  world_ok fs0 lines0 w →
  ∃ w', sort_choice field w = inl w' ∧ world_ok fs0 lines0 w' ∧
        stdin w' = stdin w.
Proof.
  intros Hw. unfold sort_choice.
  destruct (collection w) as [c|] eqn:Hc; [|by exists w].
  pose proof Hw as (Hcw & _). specialize (Hcw c Hc).
  assert (Forall data_record (_data c)) as Hdata
    by (eapply Forall_impl; [exact Hcw|by intros ? []]).
  destruct (data_records_never_raise c Hdata) as [Hsort _].
  specialize (Hsort (OValue (VStr field))).
  pose proof (sort_by_data_perm (OValue (VStr field)) c) as Hperm.
  destruct (sort_by (OValue (VStr field)) c) as [r c']. simpl in *. subst r.
  eexists. split; [done|]. split; [|done].
  apply set_collection_ok; [done|]. intros c0 [= <-]. by rewrite Hperm.
Qed.

Lemma filter_choice_ok w :
  world_ok fs0 lines0 w →
  match filter_choice w with
  | inl w' => world_ok fs0 lines0 w' ∧
              (length (stdin w') < length (stdin w))%nat
  | inr (h, w') => world_ok fs0 lines0 w' ∧ halt_ok lines0 h w'
  end.
Proof.
  intros Hw. unfold filter_choice.
  destruct (input w) as [[x w1]|] eqn:H1;
    [|split; [done|by apply input_none]].
  destruct (input_ok _ _ _ Hw H1) as (Hw1 & Hl1 & _).
  destruct (float_of_str x) as [f|]; [|done].
  destruct (collection w1) as [c|] eqn:Hc; [|split; [done|by left]].
  pose proof Hw1 as (Hcw & _). specialize (Hcw c Hc).
  assert (Forall data_record (_data c)) as Hdata
    by (eapply Forall_impl; [exact Hcw|by intros ? []]).
  destruct (data_records_never_raise c Hdata) as [_ Hfilter].
  specialize (Hfilter f). unfold filter_by_stipend in *. simpl in *.
  rewrite Hfilter. split; [|done]. apply set_collection_ok; [done|].
  by intros c0 [= <-].
Qed.

Lemma menu_step_ok w :
  world_ok fs0 lines0 w →
  match menu_step w with
  | inl w' => world_ok fs0 lines0 w' ∧
              (length (stdin w') < length (stdin w))%nat
  | inr (h, w') => world_ok fs0 lines0 w' ∧ halt_ok lines0 h w'
  end.
Proof.
  intros Hw. unfold menu_step.
  destruct (input w) as [[choice w1]|] eqn:H1;
    [|split; [done|by apply input_none]].
  destruct (input_ok _ _ _ Hw H1) as (Hw1 & Hl1 & Hchoice & Hc1 & Hf1).
  destruct (String.eqb_spec choice "1") as [->|_].
  { destruct (input w1) as [[path w2]|] eqn:H2;
      [|split; [done|by apply input_none]].
    destruct (input_ok _ _ _ Hw1 H2) as (Hw2 & Hl2 & Hpath & _).
    destruct (os_listdir path) as [names|e] eqn:Hdir; [split; [done|lia]|].
    split; [done|]. right; left. by exists path. }
  destruct (String.eqb_spec choice "2") as [->|_].
  { destruct (from_csv "data.csv" (files w1)) as [c|e] eqn:Hload.
    - split; [|simpl; lia]. apply set_collection_ok; [done|].
      intros c' ->. by apply (loaded_data_model "data.csv" (files w1)).
    - split; [done|]. by right; right. }
  destruct (String.eqb_spec choice "3") as [->|_].
  { destruct (sort_choice_ok "name" w1 Hw1) as (w' & -> & Hw' & Hs').
    split; [done|]. rewrite Hs'. lia. }
  destruct (String.eqb_spec choice "4") as [->|_].
  { destruct (sort_choice_ok "stipend" w1 Hw1) as (w' & -> & Hw' & Hs').
    split; [done|]. rewrite Hs'. lia. }
  destruct (String.eqb_spec choice "5") as [->|_].
  { pose proof (filter_choice_ok w1 Hw1) as Hfc.
    destruct (filter_choice w1) as [w'|[h w']]; [|done].
    destruct Hfc. split; [done|lia]. }
  destruct (String.eqb_spec choice "6") as [->|_].
  { destruct (add_choice_ok w1 Hw1). split; [done|lia]. }
  destruct (String.eqb_spec choice "7") as [->|_].
  { destruct (collection w1) as [c|] eqn:Hc; [|split; [done|lia]].
    split; [|simpl; lia]. destruct Hw1 as (Hcw & Hfw & Hsw).
    split; [by rewrite Hc in Hcw|]. split; [|done]. simpl.
    intros path Hpath. rewrite <-Hfw by done.
    unfold save_to_csv. destruct (_data c); [done|].
    destruct (open_for_writing "data.csv"); [|done].
    by rewrite lookup_insert_ne. }
  destruct (String.eqb_spec choice "8") as [->|_]; [by split|].
  split; [done|lia].
Qed.

Lemma input_stdin w line w' :
  input w = Some (line, w') →
  stdin w = line :: stdin w' ∧ collection w' = collection w ∧
  files w' = files w.
Proof.
  unfold input. destruct (stdin w) as [|l rest]; [done|]. by intros [= <- <-].
Qed.

(** The turns that end in an exception are those of [raising_turn]. *)
Lemma menu_step_uncaught w e w' :
  world_ok fs0 lines0 w → menu_step w = inr (Uncaught e, w') →
  raising_turn w e (stdin w') ∧
  collection w' = collection w ∧ files w' = files w.
Proof.
  intros Hw. unfold menu_step, raising_turn.
  destruct (input w) as [[choice w1]|] eqn:H1; [|done].
  destruct (input_ok _ _ _ Hw H1) as (Hw1 & _).
  apply input_stdin in H1 as (Hs1 & Hc1 & Hf1). rewrite Hs1.
  destruct (String.eqb_spec choice "1") as [->|_].
  { destruct (input w1) as [[path w2]|] eqn:H2; [|done].
    apply input_stdin in H2 as (Hs2 & Hc2 & Hf2).
    destruct (os_listdir path) as [names|e'] eqn:Hdir; [done|].
    intros [= <- <-]. rewrite Hs2, Hc2, Hf2.
    split; [|done]. left. by exists path. }
  destruct (String.eqb_spec choice "2") as [->|_].
  { destruct (from_csv "data.csv" (files w1)) as [c|e'] eqn:Hload; [done|].
    intros [= <- <-]. rewrite <-Hf1. split; [|done]. by right; left. }
  destruct (String.eqb_spec choice "3") as [->|_].
  { by destruct (sort_choice_ok "name" w1 Hw1) as (w2 & -> & _). }
  destruct (String.eqb_spec choice "4") as [->|_].
  { by destruct (sort_choice_ok "stipend" w1 Hw1) as (w2 & -> & _). }
  destruct (String.eqb_spec choice "5") as [->|_].
  { unfold filter_choice. destruct (input w1) as [[x w2]|] eqn:H2; [|done].
    destruct (input_ok _ _ _ Hw1 H2) as (Hw2 & _).
    apply input_stdin in H2 as (Hs2 & Hc2 & Hf2).
    destruct (float_of_str x) as [f|] eqn:Hx; [|done].
    destruct (collection w2) as [c|] eqn:Hc.
    - pose proof Hw2 as (Hcw & _). specialize (Hcw c Hc).
      assert (Forall data_record (_data c)) as Hdata
        by (eapply Forall_impl; [exact Hcw|by intros ? []]).
      destruct (data_records_never_raise c Hdata) as [_ Hfilter].
      specialize (Hfilter f). unfold filter_by_stipend in *. simpl in *.
      by rewrite Hfilter.
    - intros [= <- <-]. rewrite Hs2, Hf2, <-Hc1, <-Hc2.
      split; [|done]. right; right. by exists x, f. }
  destruct (String.eqb_spec choice "6") as [->|_]; [done|].
  destruct (String.eqb_spec choice "7") as [->|_].
  { by destruct (collection w1). }
  by destruct (String.eqb_spec choice "8") as [->|_].
Qed.

Lemma raising_turn_step w e rest :
  raising_turn w e rest →
  menu_step w = inr (Uncaught e, mkWorld (collection w) (files w) rest).
Proof.
  unfold menu_step, input.
  intros [(path & -> & Hdir)|[[-> Hload]|(x & f & -> & Hx & Hc & ->)]]; simpl.
  - by rewrite Hdir.
  - by rewrite Hload.
  - unfold filter_choice, input. simpl. by rewrite Hx, Hc.
Qed.

(** A run passes through each turn that goes on, up to the turn that
    ends it. *)
Lemma main_loop_turns fuel : ∀ w h,
  world_ok fs0 lines0 w → main_loop fuel w = Some h →
  ∃ w0, rtc turn w w0 ∧ world_ok fs0 lines0 w0 ∧ menu_step w0 = inr h.
Proof.
  induction fuel as [|fuel IH]; intros w h Hw Hloop; [done|]. simpl in Hloop.
  pose proof (menu_step_ok w Hw) as Hstep.
  destruct (menu_step w) as [w1|h1] eqn:Hmenu.
  - destruct Hstep as [Hw1 _].
    destruct (IH w1 h Hw1 Hloop) as (w0 & Hturns & Hw0 & Hlast).
    exists w0. split; [|done]. by eapply rtc_l.
  - injection Hloop as <-. by exists w.
Qed.

Lemma turns_main_loop w w0 h :
  rtc turn w w0 → menu_step w0 = inr h → world_ok fs0 lines0 w →
  ∀ fuel, (length (stdin w) < fuel)%nat → main_loop fuel w = Some h.
Proof.
  intros Hturns Hlast.
  induction Hturns as [w|w w1 w0 Hturn Hturns IH]; intros Hw fuel Hfuel.
  - destruct fuel as [|fuel]; [lia|]. simpl. by rewrite Hlast.
  - destruct fuel as [|fuel]; [lia|]. simpl.
    pose proof (menu_step_ok w Hw) as Hstep. unfold turn in Hturn.
    rewrite Hturn in *. destruct Hstep as [Hw1 Hl]. apply IH; [done..|lia].
Qed.

(** With more turns allowed than there are lines left, the loop ends,
    and in one of the ways of [halt_ok]. *)
Lemma main_loop_ok fuel : ∀ w,
  world_ok fs0 lines0 w → (length (stdin w) < fuel)%nat →
  ∃ h w', main_loop fuel w = Some (h, w') ∧
          world_ok fs0 lines0 w' ∧ halt_ok lines0 h w'.
Proof.
  induction fuel as [|fuel IH]; intros w Hw Hfuel; [lia|]. simpl.
  pose proof (menu_step_ok w Hw) as Hstep.
  destruct (menu_step w) as [w'|[h w']].
  - destruct Hstep as [Hw' Hl]. apply IH; [done|lia].
  - destruct Hstep as [Hw' Hh]. by exists h, w'.
Qed.
End main_facts.

Lemma main_ok `{FloatText} `{Directories} fs lines :
  ∃ h w, main fs lines = Some (h, w) ∧ world_ok fs lines w ∧ halt_ok lines h w.
Proof.
  unfold main. apply main_loop_ok; [|simpl; lia].
  split; [done|]. split; [done|]. simpl. done.
Qed.



(** X25. The Collection [main] works on holds Records of the data model
    at the end of every run: whatever was typed and whatever the files
    held, each Record has non-empty strings as [id], [date], [full_name]
    and [destination] and a float other than zero as [stipend]. *)
Theorem main_holds_data_model_records `{FloatText} `{Directories}
    (fs : filesystem) (lines : list string) (h : halt) (w : world)
    (c : ReferenceCollection) :
  main fs lines = Some (h, w) → collection w = Some c →
  Forall (fun r => data_record r ∧ constructed r) (_data c).
Proof.
  intros Hmain Hc.
  destruct (main_ok fs lines) as (h' & w' & Hmain' & (Hcw & _) & _).
  rewrite Hmain in Hmain'. injection Hmain' as <- <-. by apply Hcw.
Qed.

Lemma main_holds_data_model_records_witness :
  Forall (fun r => data_record r ∧ constructed r)
    (_data (sort_by (OValue (VStr "name")) sample_collection).2).
Proof.
  apply (@main_holds_data_model_records sample_text no_directories
           {["data.csv" := sample_table]} ["2"; "3"; "8"] Returned
           (mkWorld (Some (sort_by (OValue (VStr "name")) sample_collection).2)
              {["data.csv" := sample_table]} [])
           (sort_by (OValue (VStr "name")) sample_collection).2);
    reflexivity.
Defined.

(** X26. [main] writes to [data.csv] and to no other file: at the end of
    every run each other path holds what it held at the start. *)
Theorem main_changes_only_data_csv `{FloatText} `{Directories}
    (fs : filesystem) (lines : list string) (h : halt) (w : world)
    (path : string) :
  main fs lines = Some (h, w) → path ≠ "data.csv" →
  files w !! path = fs !! path.
Proof.
  intros Hmain Hpath.
  destruct (main_ok fs lines) as (h' & w' & Hmain' & (_ & Hfw & _) & _).
  rewrite Hmain in Hmain'. injection Hmain' as <- <-. by apply Hfw.
Qed.

Lemma main_changes_only_data_csv_witness :
  @save_to_csv sample_text no_directories "data.csv"
    (mkCollection (_data nan_collection ++ [sample_record "1" "Петров" f900]))
    {["data.csv" := nan_table; "copy.csv" := nan_table]} !! "copy.csv"
  = ({["data.csv" := nan_table; "copy.csv" := nan_table]} : filesystem)
      !! "copy.csv".
Proof.
  apply (@main_changes_only_data_csv sample_text no_directories
           {["data.csv" := nan_table; "copy.csv" := nan_table]}
           ["2"; "6"; "1"; "01.09.2024"; "Петров"; "900.0"; "деканат"; "7"; "8"]
           Returned
           (mkWorld
              (Some (mkCollection
                       (_data nan_collection ++ [sample_record "1" "Петров" f900])))
              (@save_to_csv sample_text no_directories "data.csv"
                 (mkCollection
                    (_data nan_collection ++ [sample_record "1" "Петров" f900]))
                 {["data.csv" := nan_table; "copy.csv" := nan_table]})
              [])
           "copy.csv").
  - reflexivity.
  - discriminate.
Defined.

(** X27. With console output left aside, an exception [e] leaves [main]
    exactly in a run that comes, through turns that go on, to one of
    three turns: choice 1 with a path for which [os.listdir] raises [e],
    choice 2 with [from_csv] letting [e] through, or choice 5 with a
    number typed while nothing is loaded, where [e] is [AttributeError].
    The Collection and the files are then as that turn found them, and
    the lines after it stay unread.  So no turn of choice 3, 4, 6 or 7
    ends the program by an exception. *)
Theorem main_uncaught_exceptions `{FloatText} `{Directories}
    (fs : filesystem) (lines : list string) (e : exn) (w : world) :
  main fs lines = Some (Uncaught e, w) ↔
  ∃ w0, rtc turn (mkWorld None fs lines) w0 ∧
        raising_turn w0 e (stdin w) ∧
        collection w = collection w0 ∧ files w = files w0.
Proof.
  assert (world_ok fs lines (mkWorld None fs lines)) as Hstart by by split.
  unfold main. split.
  - intros Hmain.
    destruct (main_loop_turns fs lines _ _ _ Hstart Hmain)
      as (w0 & Hturns & Hw0 & Hlast).
    exists w0. split; [done|].
    by destruct (menu_step_uncaught fs lines _ _ _ Hw0 Hlast) as (? & ? & ?).
  - intros (w0 & Hturns & Hlast & Hc & Hf).
    apply raising_turn_step in Hlast. rewrite <-Hc, <-Hf in Hlast.
    replace (mkWorld (collection w) (files w) (stdin w)) with w in Hlast
      by by destruct w.
    apply (turns_main_loop fs lines _ w0); [done..|simpl; lia].
Qed.

Lemma main_uncaught_exceptions_witness :
  let w := mkWorld None {["data.csv" := short_row_table]} ["8"] in
  ∃ w0, rtc (@turn sample_text no_directories)
          (mkWorld None {["data.csv" := short_row_table]} ["3"; "2"; "8"]) w0 ∧
        @raising_turn sample_text no_directories w0 TypeError (stdin w) ∧
        collection w = collection w0 ∧ files w = files w0.
Proof.
  apply (proj1 (@main_uncaught_exceptions sample_text no_directories
                  {["data.csv" := short_row_table]} ["3"; "2"; "8"] TypeError
                  (mkWorld None {["data.csv" := short_row_table]} ["8"]))).
  reflexivity.
Defined.

(** X28. Choice 5 before any load ends the program: when the first line
    typed is ["5"] and the next one reads as a float, [main] ends by an
    [AttributeError] that its [except ValueError] does not catch, with
    the rest of the lines unread and no file touched. *)
Theorem main_filter_before_load `{FloatText} `{Directories}
    (fs : filesystem) (x : string) (f : spec_float) (rest : list string) :
  float_of_str x = Some f →
  main fs ("5" :: x :: rest) = Some (Uncaught AttributeError, mkWorld None fs rest).
Proof.
  intros Hx. unfold main. cbn [length main_loop].
  unfold menu_step, input. simpl. unfold filter_choice, input. simpl.
  by rewrite Hx.
Qed.

Lemma main_filter_before_load_witness :
  @main sample_text no_directories ∅ ["5"; "1.0"; "8"]
  = Some (Uncaught AttributeError, mkWorld None ∅ ["8"]).
Proof.
  apply (@main_filter_before_load sample_text no_directories ∅ "1.0" f1 ["8"]).
  reflexivity.
Defined.

End LR4.
